(** * Activation and active-repository orchestration of the pull-request extension

    A shallow embedding of [src/extension.ts]: the functions [activate],
    [init] and [deactivate], the configuration-change handler, and the
    debounced selection listener, as a deterministic transition system
    driven by the events the host dispatches.  The host is single threaded:
    every step below is one synchronous run of extension code, from the
    dispatch of an event (or the settling of an awaited promise) to the
    next suspension. *)

From Stdlib Require Import List Bool Arith Lia String.
Import ListNotations.
Local Open Scope string_scope.
Local Open Scope list_scope.

(** ** Data of the host and of the collaborators *)

(** A repository object is known by its identity; [rid] is the handle the
    provider gave it, [ui_selected] the flag read as [r.ui.selected]. *)
Definition RepoId := nat.
Definition TimerId := nat.
Definition Error := string.

Record Repository := mkRepository { rid : RepoId; ui_selected : bool }.

(** How a call to a collaborator that hands back a promise ends: the promise
    fulfils, the call throws before handing one back, or the promise
    rejects.  The collaborators ([loadConfiguration], [clearCredentialCache],
    [status], [shutdown]) are not among the sources; the way each of their
    calls ends is given by the event that reports it. *)
Inductive Outcome :=
| Returns
| Throws (e : Error)
| Rejects (e : Error).

(** [await f()]: a throw and a rejection both surface as an exception at the
    await. *)
Definition awaited (o : Outcome) : option Error :=
  match o with
  | Returns => None
  | Throws e => Some e
  | Rejects e => Some e
  end.

(** The text [formatError(e)] of ./common/utils is left uninterpreted. *)
Inductive Message := formatError (e : Error).

(** What a promise of the extension's own async functions has come to. *)
Inductive Promise :=
| NotCalled
| Pending
| Fulfilled
| Rejected (e : Error).

Inductive ITelemetry := Telemetry.

(** Calls that leave the extension, in the order they are made.  Two entries
    are marks rather than calls: [Call_init] stands at each entry into
    [init], [UnhandledRejection] where a rejected promise is dropped. *)
Inductive Effect :=
| ResourceInitialize
| LoggerAppendLine (line : string)
| Call_init (repository : RepoId)
| LoadConfiguration
| ConfigurationOnDidChange
| ListenForVSCodeChanges
| RegisterUriHandler
| NewPullRequestManager (repository : RepoId)
| NewReviewManager (repository : RepoId)
| RegisterCommands
| UiOnDidChange (repo : RepoId)
| TelemetryOn (name : string)
| OnDidOpenRepository
| DisposeOnDidOpenRepository
| ClearCredentialCache
| RepositoryStatus (repository : RepoId)
| ShowErrorMessage (m : Message)
| UnhandledRejection (e : Error)
| SetTimeout (t : TimerId) (ms : nat)
| ClearTimeout (t : TimerId)
| SetPrManagerRepository (r : RepoId)
| SetReviewManagerRepository (r : RepoId)
| TelemetryShutdown.

(** Modelled from the spec: the classes [PullRequestManager] and
    [ReviewManager] are not among the sources.  Section 6 gives each a
    constructor that takes the repository and a mutable [repository] field;
    the fields below are those, the rest of the managers plays no part
    here. *)
Record PullRequestManager := mkPullRequestManager { pr_repository : RepoId }.
Record ReviewManager := mkReviewManager { rm_repository : RepoId }.

(** The variables of one run of [init] that its closures share.  [prManager]
    and [reviewManager] are the consts of lines 44-45; they are bound in the
    same synchronous run that registers the closures, so a closure never
    runs without them.  [listening] are the repositories whose
    [ui.onDidChange] got the listener of line 55, [clearing] counts the runs
    of the configuration handler that are suspended at line 30. *)
Record Scope := mkScope {
  repository : RepoId;
  prManager : PullRequestManager;
  reviewManager : ReviewManager;
  updateRepositoryTimer : option TimerId;
  listening : list RepoId;
  clearing : nat
}.

(** Where the extension stands: [activate] not called yet; [activate] done
    and the single-shot subscription to [git.onDidOpenRepository] waiting for
    a selected repository; [init] suspended at line 26; [init] run to its
    end, with the variables its closures share; [init] left by the failure
    of the configuration load. *)
Inductive Stage :=
| Inactive
| Discovering
| Loading (repository : RepoId) (awaitedByActivate : bool)
| Initialized (s : Scope)
| Aborted (e : Error).

Record World := mkWorld {
  git_repositories : list Repository;
  next_repository : RepoId;
  telemetry : option ITelemetry;
  stage : Stage;
  timers : list TimerId;
  next_timer : TimerId;
  activation : Promise;
  deactivation : Promise;
  log : list Effect
}.

Definition initial : World :=
  {| git_repositories := []; next_repository := 0; telemetry := None;
     stage := Inactive; timers := []; next_timer := 1;
     activation := NotCalled; deactivation := NotCalled; log := [] |}.

(** ** Field updates *)

Definition emit (w : World) (es : list Effect) : World :=
  {| git_repositories := git_repositories w; next_repository := next_repository w;
     telemetry := telemetry w; stage := stage w; timers := timers w;
     next_timer := next_timer w; activation := activation w;
     deactivation := deactivation w; log := log w ++ es |}.

Definition set_stage (w : World) (st : Stage) : World :=
  {| git_repositories := git_repositories w; next_repository := next_repository w;
     telemetry := telemetry w; stage := st; timers := timers w;
     next_timer := next_timer w; activation := activation w;
     deactivation := deactivation w; log := log w |}.

Definition set_repositories (w : World) (rs : list Repository) : World :=
  {| git_repositories := rs; next_repository := next_repository w;
     telemetry := telemetry w; stage := stage w; timers := timers w;
     next_timer := next_timer w; activation := activation w;
     deactivation := deactivation w; log := log w |}.

Definition set_telemetry (w : World) (t : option ITelemetry) : World :=
  {| git_repositories := git_repositories w; next_repository := next_repository w;
     telemetry := t; stage := stage w; timers := timers w;
     next_timer := next_timer w; activation := activation w;
     deactivation := deactivation w; log := log w |}.

Definition set_timers (w : World) (ts : list TimerId) : World :=
  {| git_repositories := git_repositories w; next_repository := next_repository w;
     telemetry := telemetry w; stage := stage w; timers := ts;
     next_timer := next_timer w; activation := activation w;
     deactivation := deactivation w; log := log w |}.

Definition set_activation (w : World) (p : Promise) : World :=
  {| git_repositories := git_repositories w; next_repository := next_repository w;
     telemetry := telemetry w; stage := stage w; timers := timers w;
     next_timer := next_timer w; activation := p;
     deactivation := deactivation w; log := log w |}.

Definition set_deactivation (w : World) (p : Promise) : World :=
  {| git_repositories := git_repositories w; next_repository := next_repository w;
     telemetry := telemetry w; stage := stage w; timers := timers w;
     next_timer := next_timer w; activation := activation w;
     deactivation := p; log := log w |}.

Definition set_updateRepositoryTimer (s : Scope) (t : option TimerId) : Scope :=
  {| repository := repository s; prManager := prManager s;
     reviewManager := reviewManager s; updateRepositoryTimer := t;
     listening := listening s; clearing := clearing s |}.

Definition set_prManager (s : Scope) (m : PullRequestManager) : Scope :=
  {| repository := repository s; prManager := m;
     reviewManager := reviewManager s;
     updateRepositoryTimer := updateRepositoryTimer s;
     listening := listening s; clearing := clearing s |}.

Definition set_reviewManager (s : Scope) (m : ReviewManager) : Scope :=
  {| repository := repository s; prManager := prManager s;
     reviewManager := m;
     updateRepositoryTimer := updateRepositoryTimer s;
     listening := listening s; clearing := clearing s |}.

Definition set_clearing (s : Scope) (n : nat) : Scope :=
  {| repository := repository s; prManager := prManager s;
     reviewManager := reviewManager s;
     updateRepositoryTimer := updateRepositoryTimer s;
     listening := listening s; clearing := n |}.

(** ** The host's timer table *)

(** [setTimeout(callback, ms)]: a fresh handle joins the pending timers.
    Every callback the extension schedules is the closure of lines 60-67, so
    the table keeps the handles only. *)
Definition setTimeout (w : World) (ms : nat) : TimerId * World :=
  let t := next_timer w in
  (t, {| git_repositories := git_repositories w; next_repository := next_repository w;
         telemetry := telemetry w; stage := stage w; timers := timers w ++ [t];
         next_timer := S t; activation := activation w;
         deactivation := deactivation w; log := log w ++ [SetTimeout t ms] |}).

(** [clearTimeout(t)]: a pending timer is withdrawn; a handle that fired
    already is ignored. *)
Definition clearTimeout (w : World) (t : TimerId) : World :=
  emit (set_timers w (remove Nat.eq_dec t (timers w))) [ClearTimeout t].

(** ** [git.repositories.filter(r => r.ui.selected)[0]] *)

Definition firstSelectedRepository (repos : list Repository) : option Repository :=
  nth_error (filter ui_selected repos) 0.

(** ** [init], lines 22-72 *)

(** Lines 23-26, up to the suspension at [await configuration.loadConfiguration()].
    [byActivate] tells whether [activate] is awaiting this run (line 87) or
    the run was started by the repository-opened listener (line 90), which
    drops the promise. *)
Definition init (w : World) (repo : RepoId) (byActivate : bool) : World :=
  set_stage
    (emit w [Call_init repo;
             LoggerAppendLine "Git repository found, initializing review manager and pr tree view.";
             LoadConfiguration])
    (Loading repo byActivate).

(** Lines 27-71, the run after the configuration has loaded. *)
Definition init_loaded (w : World) (repo : RepoId) : World :=
  let w1 := emit w [ConfigurationOnDidChange;
                    ListenForVSCodeChanges;
                    RegisterUriHandler;
                    NewPullRequestManager repo;
                    NewReviewManager repo;
                    RegisterCommands] in
  let repos := map rid (git_repositories w1) in
  let w2 := emit w1 (map UiOnDidChange repos) in
  let w3 := emit w2 [TelemetryOn "startup"] in
  set_stage w3
    (Initialized
       {| repository := repo;
          prManager := {| pr_repository := repo |};
          reviewManager := {| rm_repository := repo |};
          updateRepositoryTimer := None;
          listening := repos;
          clearing := 0 |}).

(** The promise of [init] settles; [activate] settles with it when it is
    awaiting it, a dropped rejection is reported by the host as unhandled. *)
Definition settle_init (w : World) (byActivate : bool) (failure : option Error) : World :=
  match failure, byActivate with
  | None, true => set_activation w Fulfilled
  | None, false => w
  | Some e, true => set_activation w (Rejected e)
  | Some e, false => emit w [UnhandledRejection e]
  end.

Definition loadConfigurationSettled (w : World) (o : Outcome) : World :=
  match stage w with
  | Loading repo byActivate =>
      match awaited o with
      | None => settle_init (init_loaded w repo) byActivate None
      | Some e => settle_init (set_stage w (Aborted e)) byActivate (Some e)
      end
  | _ => w
  end.

(** ** [activate], lines 74-92 *)

(** Modelled from the spec: [filterEvent] and [onceEvent] of ./common/utils
    are not among the sources.  Following section 4.1, the listener given to
    [onceEvent(filterEvent(git.onDidOpenRepository, r => r.ui.selected))] runs
    on the first repository-opened event whose repository is selected, the
    subscription being released before the listener is called; events that do not
    pass the filter leave the subscription in place.  The subscription is
    live exactly in stage [Discovering]. *)
Definition onDidOpenRelevantRepository (w : World) (r : Repository) : World :=
  match stage w with
  | Discovering =>
      if ui_selected r
      then init (emit w [DisposeOnDidOpenRepository]) (rid r) false
      else w
  | _ => w
  end.

(** Lines 76-91.  The calls of lines 76-81 ([Resource.initialize],
    [new Telemetry], [getExtension('vscode.git').exports], [getAPI(1)]) are
    taken to return; a throw there would reject the promise of [activate]
    before any line below runs, and is not part of this model. *)
Definition activate (w : World) : World :=
  let w1 := emit w [ResourceInitialize] in
  let w2 := set_telemetry w1 (Some Telemetry) in
  let w3 := emit w2 [LoggerAppendLine "Looking for git repository"] in
  match firstSelectedRepository (git_repositories w3) with
  | Some r => init (set_activation w3 Pending) (rid r) true
  | None => set_activation (set_stage (emit w3 [OnDidOpenRepository]) Discovering) Fulfilled
  end.

(** ** The configuration-change handler, lines 27-38 *)

(** Lines 28-30.  The handler is dispatched once line 27 has registered it,
    that is in stage [Initialized], where [prManager] is bound: the guard
    [if (prManager)] holds, the credential cache is asked to clear and the
    handler suspends at the await.  A throw of [clearCredentialCache] before
    it hands back a promise reaches the catch within this same dispatch in
    the code; here it is reported with the settling, which moves the moment
    the message is shown and nothing else. *)
Definition onDidChange (s : Scope) : Scope * list Effect :=
  (set_clearing s (S (clearing s)), [ClearCredentialCache]).

(** Lines 31-36, after the await.  A failure of the awaited call goes to the
    catch of line 34.  Otherwise [repository], the parameter of [init] (an
    object, so the guard of line 31 holds), is asked for its status: the
    call is not awaited, so a throw goes to the catch and a rejection of the
    promise it hands back is dropped. *)
Definition onDidChange_resumed (s : Scope) (clear status : Outcome) : list Effect :=
  match awaited clear with
  | Some e => [ShowErrorMessage (formatError e)]
  | None =>
      RepositoryStatus (repository s) ::
      match status with
      | Returns => []
      | Throws e => [ShowErrorMessage (formatError e)]
      | Rejects e => [UnhandledRejection e]
      end
  end.

(** ** The selection listener and its timer, lines 53-69 *)

(** Lines 56-60: the body of the listener given to [repo.ui.onDidChange]. *)
Definition onDidChangeSelection (ws : World * Scope) : World * Scope :=
  let (w, s) := ws in
  let w1 := match updateRepositoryTimer s with
            | Some t => clearTimeout w t
            | None => w
            end in
  let (t, w2) := setTimeout w1 50 in
  (w2, set_updateRepositoryTimer s (Some t)).

(** Lines 61-66: the callback of the timer. *)
Definition updateRepository (repos : list Repository) (s : Scope) : Scope * list Effect :=
  match firstSelectedRepository repos with
  | Some r =>
      let s1 := set_prManager s {| pr_repository := rid r |} in
      let s2 := set_reviewManager s1 {| rm_repository := rid r |} in
      (s2, [SetPrManagerRepository (rid r); SetReviewManagerRepository (rid r)])
  | None => (s, [])
  end.

(** ** [deactivate], lines 94-98 *)

Definition deactivate (w : World) : World :=
  match telemetry w with
  | Some _ => set_deactivation (emit w [TelemetryShutdown]) Pending
  | None => set_deactivation w Fulfilled
  end.

Definition shutdownSettled (w : World) (o : Outcome) : World :=
  match deactivation w with
  | Pending =>
      match awaited o with
      | None => set_deactivation w Fulfilled
      | Some e => set_deactivation w (Rejected e)
      end
  | _ => w
  end.

(** ** Events and the transition function *)

(** What the host dispatches.  The provider opens a repository (a new
    object, with the next handle) and fires [onDidOpenRepository], closes
    one, flips the flag of one, fires the [ui.onDidChange] of one; the host
    calls [activate]; the promise of [loadConfiguration] settles; the
    configuration reports a change; the promise of a pending
    [clearCredentialCache] settles, [status] being the way the call of line
    32 ends if it is reached; a timer fires; the host calls [deactivate];
    the promise of [telemetry.shutdown] settles. *)
Inductive Event :=
| OpenRepository (selected : bool)
| CloseRepository (r : RepoId)
| SetSelected (r : RepoId) (selected : bool)
| SelectionChanged (r : RepoId)
| Activate
| LoadConfigurationSettled (o : Outcome)
| ConfigurationChanged
| ClearCredentialCacheSettled (clear status : Outcome)
| TimerFired (t : TimerId)
| Deactivate
| ShutdownSettled (o : Outcome).

(** The flag of repository [r] becomes [b]. *)
Definition mark (r : RepoId) (b : bool) (x : Repository) : Repository :=
  if Nat.eqb (rid x) r then {| rid := rid x; ui_selected := b |} else x.

(** Each subscription of [listening] on the repository that changed runs the
    listener once, in subscription order. *)
Definition fire_selection (r : RepoId) (w : World) (s : Scope) : World * Scope :=
  fold_left (fun ws _ => onDidChangeSelection ws)
            (filter (Nat.eqb r) (listening s)) (w, s).

(** One dispatch.  The host calls [activate] and [deactivate] once each; a
    settling with nothing suspended on it, and a handle that is not pending,
    do nothing. *)
Definition step (w : World) (ev : Event) : World :=
  match ev with
  | OpenRepository b =>
      let r := {| rid := next_repository w; ui_selected := b |} in
      let w1 := {| git_repositories := git_repositories w ++ [r];
                   next_repository := S (next_repository w);
                   telemetry := telemetry w; stage := stage w; timers := timers w;
                   next_timer := next_timer w; activation := activation w;
                   deactivation := deactivation w; log := log w |} in
      onDidOpenRelevantRepository w1 r
  | CloseRepository r =>
      set_repositories w (filter (fun x => negb (Nat.eqb (rid x) r)) (git_repositories w))
  | SetSelected r b =>
      set_repositories w (map (mark r b) (git_repositories w))
  | SelectionChanged r =>
      match stage w with
      | Initialized s =>
          let (w1, s1) := fire_selection r w s in
          set_stage w1 (Initialized s1)
      | _ => w
      end
  | Activate =>
      match stage w with
      | Inactive => activate w
      | _ => w
      end
  | LoadConfigurationSettled o => loadConfigurationSettled w o
  | ConfigurationChanged =>
      match stage w with
      | Initialized s =>
          let (s1, es) := onDidChange s in
          emit (set_stage w (Initialized s1)) es
      | _ => w
      end
  | ClearCredentialCacheSettled clear status =>
      match stage w with
      | Initialized s =>
          match clearing s with
          | S n => emit (set_stage w (Initialized (set_clearing s n)))
                        (onDidChange_resumed s clear status)
          | O => w
          end
      | _ => w
      end
  | TimerFired t =>
      if existsb (Nat.eqb t) (timers w)
      then
        let w1 := set_timers w (remove Nat.eq_dec t (timers w)) in
        match stage w1 with
        | Initialized s =>
            let (s1, es) := updateRepository (git_repositories w1) s in
            emit (set_stage w1 (Initialized s1)) es
        | _ => w1
        end
      else w
  | Deactivate =>
      match deactivation w with
      | NotCalled => deactivate w
      | _ => w
      end
  | ShutdownSettled o => shutdownSettled w o
  end.

Definition run (w : World) (evs : list Event) : World := fold_left step evs w.

Definition reachable (w : World) : Prop := exists evs, w = run initial evs.

(** ** Reading the log *)

Definition is_startup (e : Effect) : bool :=
  match e with
  | TelemetryOn name => String.eqb name "startup"
  | _ => false
  end.

Definition startups (l : list Effect) : nat := List.length (filter is_startup l).

Definition init_call (e : Effect) : list RepoId :=
  match e with
  | Call_init r => [r]
  | _ => []
  end.

(** The repositories [init] was called with, one entry per call. *)
Definition inits (l : list Effect) : list RepoId := flat_map init_call l.

(** The calls by which [init] constructs collaborators and attaches them to
    event sources. *)
Definition wires (e : Effect) : bool :=
  match e with
  | ConfigurationOnDidChange | ListenForVSCodeChanges | RegisterUriHandler
  | NewPullRequestManager _ | NewReviewManager _ | RegisterCommands
  | UiOnDidChange _ | TelemetryOn _ => true
  | _ => false
  end.

(** What [init] does between the loading of the configuration and the
    startup event: lines 27-69. *)
Definition wiring (repo : RepoId) (repos : list RepoId) : list Effect :=
  [ConfigurationOnDidChange; ListenForVSCodeChanges; RegisterUriHandler;
   NewPullRequestManager repo; NewReviewManager repo; RegisterCommands]
  ++ map UiOnDidChange repos.

(** Effects of the handlers that run after initialization. *)
Definition later (e : Effect) : bool :=
  match e with
  | ClearCredentialCache | RepositoryStatus _ | ShowErrorMessage _
  | UnhandledRejection _ | SetTimeout _ _ | ClearTimeout _
  | SetPrManagerRepository _ | SetReviewManagerRepository _
  | TelemetryShutdown => true
  | _ => false
  end.

(** ** The selection listener *)

(** What the listener leaves alone. *)
Record listener_frame (w : World) (s : Scope) (w' : World) (s' : Scope) : Prop := {
  lf_repositories : git_repositories w' = git_repositories w;
  lf_next_repository : next_repository w' = next_repository w;
  lf_telemetry : telemetry w' = telemetry w;
  lf_stage : stage w' = stage w;
  lf_activation : activation w' = activation w;
  lf_deactivation : deactivation w' = deactivation w;
  lf_log : exists es, log w' = log w ++ es /\ forallb later es = true;
  lf_next_timer : next_timer w <= next_timer w';
  lf_repository : repository s' = repository s;
  lf_prManager : prManager s' = prManager s;
  lf_reviewManager : reviewManager s' = reviewManager s;
  lf_listening : listening s' = listening s;
  lf_clearing : clearing s' = clearing s
}.

(** The pending timer is the one [updateRepositoryTimer] holds. *)
Definition armed (w : World) (s : Scope) : Prop :=
  exists t, updateRepositoryTimer s = Some t /\ timers w = [t].

Definition timers_ok (w : World) (s : Scope) : Prop :=
  (timers w = [] \/ armed w s) /\ Forall (fun t => t < next_timer w) (timers w).

(** ** The invariant of the reachable worlds *)

(** The log against the stage: [init] has been called at most once, nothing
    is constructed or subscribed before the configuration has loaded, and
    once it has, the log holds the calls of lines 27-69, then the startup
    event, then calls of the handlers only. *)
Definition log_ok (w : World) : Prop :=
  match stage w with
  | Inactive | Discovering =>
      inits (log w) = [] /\ existsb wires (log w) = false
  | Loading r _ =>
      inits (log w) = [r] /\ existsb wires (log w) = false
  | Aborted _ =>
      (exists r, inits (log w) = [r]) /\ existsb wires (log w) = false
  | Initialized s =>
      inits (log w) = [repository s] /\
      exists pre post,
        log w = pre ++ wiring (repository s) (listening s)
                    ++ TelemetryOn "startup" :: post /\
        existsb wires pre = false /\ forallb later post = true
  end.

(** The promise of [activate] against the stage: pending exactly while
    [activate] awaits [init] at line 87. *)
Definition activation_ok (w : World) : Prop :=
  match stage w with
  | Inactive => activation w = NotCalled
  | Discovering => activation w = Fulfilled
  | Loading _ true => activation w = Pending
  | Loading _ false => activation w = Fulfilled
  | _ => activation w <> NotCalled /\ activation w <> Pending
  end.

Record Inv (w : World) : Prop := {
  inv_timers : match stage w with
               | Initialized s => timers_ok w s
               | _ => timers w = []
               end;
  inv_managers : forall s, stage w = Initialized s ->
                 pr_repository (prManager s) = rm_repository (reviewManager s);
  inv_handles : Forall (fun r => rid r < next_repository w) (git_repositories w);
  inv_listening : forall s, stage w = Initialized s ->
                  Forall (fun r => r < next_repository w) (listening s);
  inv_log : log_ok w;
  inv_telemetry : telemetry w = None <-> stage w = Inactive;
  inv_activation : activation_ok w
}.

(** ** The debounce timer *)

Definition churn (ev : Event) : bool :=
  match ev with
  | TimerFired _ => false
  | _ => true
  end.


(** ** Shutdown *)

Definition settles_shutdown (ev : Event) : bool :=
  match ev with
  | ShutdownSettled _ => true
  | _ => false
  end.

(** ** Discovery of the first repository *)

(** The handle of the first repository the provider opens selected, when
    the next handle it gives out is [next]. *)
Fixpoint first_relevant (next : RepoId) (evs : list Event) : option RepoId :=
  match evs with
  | [] => None
  | OpenRepository true :: _ => Some next
  | OpenRepository false :: evs' => first_relevant (S next) evs'
  | _ :: evs' => first_relevant next evs'
  end.

Definition discovered (w : World) : Prop :=
  match stage w with
  | Inactive | Discovering => False
  | _ => True
  end.

(** ** Concrete runs *)

(** Two repositories, the first one selected; the extension activates and
    the configuration loads. *)
Definition two_repositories : World :=
  run initial [OpenRepository true; OpenRepository false; Activate;
               LoadConfigurationSettled Returns].

Definition two_repositories_scope : Scope :=
  {| repository := 0;
     prManager := {| pr_repository := 0 |};
     reviewManager := {| rm_repository := 0 |};
     updateRepositoryTimer := None;
     listening := [0; 1];
     clearing := 0 |}.

(** The user moves the selection from repository 0 to repository 1: two
    selection changes within the window. *)
Definition selection_moves : list Event :=
  [SetSelected 0 false; SelectionChanged 0; SetSelected 1 true; SelectionChanged 1].

(** The selection has moved, the timer has fired, and a configuration change
    has been dispatched. *)
Definition switched : World :=
  run two_repositories (selection_moves ++ [TimerFired 2; ConfigurationChanged]).

(** One repository, initialized, a configuration change dispatched. *)
Definition configured : World :=
  run initial [OpenRepository true; Activate; LoadConfigurationSettled Returns;
               ConfigurationChanged].

(** Activation with one selected repository, the configuration still
    loading. *)
Definition loading : World := run initial [OpenRepository true; Activate].

(** * Further readings of the log and of the state *)

(** ** Reading calls off the log *)

Definition count (p : Effect -> bool) (l : list Effect) : nat :=
  List.length (filter p l).

Definition is_clear (e : Effect) : bool :=
  match e with
  | ClearCredentialCache => true
  | _ => false
  end.

Definition is_status (e : Effect) : bool :=
  match e with
  | RepositoryStatus _ => true
  | _ => false
  end.

Definition is_show (e : Effect) : bool :=
  match e with
  | ShowErrorMessage _ => true
  | _ => false
  end.

(** The calls made by the closures [init] registers: the configuration
    handler, the selection listener and the callback of its timer. *)
Definition handled (e : Effect) : bool :=
  match e with
  | ClearCredentialCache | RepositoryStatus _ | ShowErrorMessage _
  | SetTimeout _ _ | ClearTimeout _
  | SetPrManagerRepository _ | SetReviewManagerRepository _ => true
  | _ => false
  end.

(** The calls that can be made while [init] has not run to its end. *)
Definition early (e : Effect) : bool :=
  match e with
  | ResourceInitialize | LoggerAppendLine _ | Call_init _ | LoadConfiguration
  | OnDidOpenRepository | DisposeOnDidOpenRepository
  | UnhandledRejection _ | TelemetryShutdown => true
  | _ => false
  end.

Definition scheduled_handle (e : Effect) : list TimerId :=
  match e with
  | SetTimeout t _ => [t]
  | _ => []
  end.

Definition cleared_handle (e : Effect) : list TimerId :=
  match e with
  | ClearTimeout t => [t]
  | _ => []
  end.

(** The handles given out by [setTimeout], and those passed to
    [clearTimeout], in the order of the calls. *)
Definition scheduled (l : list Effect) : list TimerId := flat_map scheduled_handle l.
Definition cleared (l : list Effect) : list TimerId := flat_map cleared_handle l.

Definition pr_assignment (e : Effect) : list RepoId :=
  match e with
  | SetPrManagerRepository r => [r]
  | _ => []
  end.

Definition rm_assignment (e : Effect) : list RepoId :=
  match e with
  | SetReviewManagerRepository r => [r]
  | _ => []
  end.

(** The repositories assigned to [prManager.repository] and to
    [reviewManager.repository], in the order of the assignments. *)
Definition pr_assignments (l : list Effect) : list RepoId := flat_map pr_assignment l.
Definition rm_assignments (l : list Effect) : list RepoId := flat_map rm_assignment l.

(** The scope [init] leaves when it has run to its end. *)
Definition fresh_scope (repo : RepoId) (repos : list RepoId) : Scope :=
  {| repository := repo;
     prManager := {| pr_repository := repo |};
     reviewManager := {| rm_repository := repo |};
     updateRepositoryTimer := None;
     listening := repos;
     clearing := 0 |}.

(** What one dispatch does to an initialized extension: the calls it makes
    and the scope it leaves. *)
Inductive handling (w : World) (s : Scope) : Event -> list Effect -> Scope -> Prop :=
| handling_change :
    handling w s ConfigurationChanged [ClearCredentialCache]
             (set_clearing s (S (clearing s)))
| handling_resume clear status n :
    clearing s = S n ->
    handling w s (ClearCredentialCacheSettled clear status)
             (onDidChange_resumed s clear status) (set_clearing s n)
| handling_fire t :
    In t (timers w) ->
    handling w s (TimerFired t)
             (snd (updateRepository (git_repositories w) s))
             (fst (updateRepository (git_repositories w) s))
| handling_selection r w' s' es :
    fire_selection r w s = (w', s') -> log w' = log w ++ es ->
    handling w s (SelectionChanged r) es s'
| handling_deactivate :
    deactivation w = NotCalled ->
    handling w s Deactivate [TelemetryShutdown] s
| handling_nothing ev :
    handling w s ev [] s.

Definition timer_effect (e : Effect) : bool :=
  match e with
  | SetTimeout _ _ | ClearTimeout _ => true
  | _ => false
  end.

(** Handler activity against the stage: none before [init] has run to its
    end, and from then on only after the startup event. *)
Definition quiet (w : World) : Prop :=
  match stage w with
  | Initialized _ =>
      exists pre post,
        log w = pre ++ TelemetryOn "startup" :: post /\ existsb handled pre = false
  | _ => existsb handled (log w) = false
  end.

(** The calls of the configuration handler against the runs of it that are
    still suspended. *)
Definition accounted (w : World) : Prop :=
  match stage w with
  | Initialized s =>
      count is_status (log w) + clearing s <= count is_clear (log w) /\
      count is_show (log w) + clearing s <= count is_clear (log w) /\
      count is_clear (log w) <= clearing s + count is_status (log w) + count is_show (log w)
  | _ =>
      count is_clear (log w) = 0 /\ count is_status (log w) = 0 /\
      count is_show (log w) = 0
  end.

(** The handles scheduled and cleared so far against the handle the listener
    holds. *)
Definition ledger (l : list Effect) (s : Scope) : Prop :=
  match updateRepositoryTimer s with
  | Some t => scheduled l = cleared l ++ [t]
  | None => scheduled l = [] /\ cleared l = []
  end.

Definition timers_logged (w : World) : Prop :=
  match stage w with
  | Initialized s => ledger (log w) s
  | _ => scheduled (log w) = [] /\ cleared (log w) = []
  end.

(** The assignments made so far against the repository each manager holds. *)
Definition assigned (w : World) : Prop :=
  match stage w with
  | Initialized s =>
      pr_assignments (log w) = rm_assignments (log w) /\
      pr_repository (prManager s) = last (pr_assignments (log w)) (repository s) /\
      rm_repository (reviewManager s) = last (rm_assignments (log w)) (repository s)
  | _ => pr_assignments (log w) = [] /\ rm_assignments (log w) = []
  end.

Definition opens_selected (ev : Event) : bool :=
  match ev with
  | OpenRepository true => true
  | _ => false
  end.

(** The events of the teardown, and the one call it makes. *)
Definition tears_down (ev : Event) : bool :=
  match ev with
  | Deactivate | ShutdownSettled _ => true
  | _ => false
  end.

Definition is_shutdown (e : Effect) : bool :=
  match e with
  | TelemetryShutdown => true
  | _ => false
  end.

(** A world with what the teardown writes taken out: the promise of
    [deactivate] and the shutdown calls in the log. *)
Definition without_teardown (w : World) : World :=
  {| git_repositories := git_repositories w; next_repository := next_repository w;
     telemetry := telemetry w; stage := stage w; timers := timers w;
     next_timer := next_timer w; activation := activation w;
     deactivation := NotCalled;
     log := filter (fun e => negb (is_shutdown e)) (log w) |}.

(** * Verification *)

(** ** Elementary facts *)

Lemma set_stage_same (w : World) (st : Stage) :
  stage w = st -> set_stage w st = w.
Proof. destruct w; simpl; intros ->; reflexivity. Qed.

Lemma startups_app (l1 l2 : list Effect) :
  startups (l1 ++ l2) = startups l1 + startups l2.
Proof. unfold startups. rewrite filter_app, length_app. reflexivity. Qed.

Lemma inits_app (l1 l2 : list Effect) : inits (l1 ++ l2) = inits l1 ++ inits l2.
Proof. unfold inits. apply flat_map_app. Qed.

Lemma later_startups (es : list Effect) : forallb later es = true -> startups es = 0.
Proof.
  induction es as [|e es IH]; simpl; [reflexivity|].
  intros H. apply andb_true_iff in H as [He Hes].
  unfold startups in *. simpl.
  destruct e; simpl in *; try discriminate; auto.
Qed.

Lemma later_inits (es : list Effect) : forallb later es = true -> inits es = [].
Proof.
  induction es as [|e es IH]; simpl; [reflexivity|].
  intros H. apply andb_true_iff in H as [He Hes].
  destruct e; simpl in *; try discriminate; auto.
Qed.

Lemma later_wires (es : list Effect) : forallb later es = true -> existsb wires es = false.
Proof.
  induction es as [|e es IH]; simpl; [reflexivity|].
  intros H. apply andb_true_iff in H as [He Hes].
  destruct e; simpl in *; try discriminate; auto.
Qed.

Lemma unwired_startups (l : list Effect) : existsb wires l = false -> startups l = 0.
Proof.
  induction l as [|e l IH]; simpl; [reflexivity|].
  intros H. apply orb_false_iff in H as [He Hl].
  unfold startups in *. simpl.
  destruct e; simpl in *; try discriminate; auto.
Qed.

Lemma startups_subscriptions (repos : list RepoId) :
  startups (map UiOnDidChange repos) = 0.
Proof. induction repos as [|r repos IH]; [reflexivity | exact IH]. Qed.

Lemma startups_wiring (repo : RepoId) (repos : list RepoId) :
  startups (wiring repo repos) = 0.
Proof. unfold wiring. rewrite startups_app, startups_subscriptions. reflexivity. Qed.

Lemma inits_subscriptions (repos : list RepoId) :
  inits (map UiOnDidChange repos) = [].
Proof. induction repos as [|r repos IH]; [reflexivity | exact IH]. Qed.

Lemma listener_frame_refl (w : World) (s : Scope) : listener_frame w s w s.
Proof.
  constructor; try reflexivity.
  exists []. rewrite app_nil_r. split; reflexivity.
Qed.

Lemma listener_frame_trans (w1 w2 w3 : World) (s1 s2 s3 : Scope) :
  listener_frame w1 s1 w2 s2 -> listener_frame w2 s2 w3 s3 ->
  listener_frame w1 s1 w3 s3.
Proof.
  intros [? ? ? ? ? ? (es1 & E1 & L1) ? ? ? ? ? ?]
         [? ? ? ? ? ? (es2 & E2 & L2) ? ? ? ? ? ?].
  constructor; try congruence; try lia.
  exists (es1 ++ es2). rewrite E2, E1, app_assoc, forallb_app, L1, L2.
  split; reflexivity.
Qed.

Lemma onDidChangeSelection_frame (w : World) (s : Scope) :
  listener_frame w s (fst (onDidChangeSelection (w, s)))
                     (snd (onDidChangeSelection (w, s))).
Proof.
  unfold onDidChangeSelection, setTimeout, clearTimeout.
  destruct (updateRepositoryTimer s) as [t|]; simpl;
    constructor; simpl; try reflexivity; try lia.
  - exists [ClearTimeout t; SetTimeout (next_timer w) 50].
    rewrite <- app_assoc. split; reflexivity.
  - exists [SetTimeout (next_timer w) 50]. split; reflexivity.
Qed.

Lemma fire_selection_frame (r : RepoId) (w : World) (s : Scope) :
  listener_frame w s (fst (fire_selection r w s)) (snd (fire_selection r w s)).
Proof.
  unfold fire_selection.
  generalize (filter (Nat.eqb r) (listening s)) as subs.
  intros subs. revert w s.
  induction subs as [|x subs IH]; intros w s; cbn [fold_left].
  - apply listener_frame_refl.
  - destruct (onDidChangeSelection (w, s)) as [w1 s1] eqn:E.
    eapply listener_frame_trans; [|apply IH].
    pose proof (onDidChangeSelection_frame w s) as F. rewrite E in F. exact F.
Qed.

Lemma remove_single (t : TimerId) : remove Nat.eq_dec t [t] = [].
Proof. simpl. destruct (Nat.eq_dec t t); [reflexivity | contradiction]. Qed.

Lemma onDidChangeSelection_arms (w : World) (s : Scope) :
  timers_ok w s ->
  let w' := fst (onDidChangeSelection (w, s)) in
  let s' := snd (onDidChangeSelection (w, s)) in
  timers w' = [next_timer w] /\ updateRepositoryTimer s' = Some (next_timer w) /\
  next_timer w' = S (next_timer w).
Proof.
  intros [[E | (t & Et & E)] _]; unfold onDidChangeSelection, setTimeout, clearTimeout;
    simpl.
  - destruct (updateRepositoryTimer s) as [t|]; simpl; rewrite E; simpl; auto.
  - rewrite Et. simpl. rewrite E, remove_single. simpl. auto.
Qed.

Lemma onDidChangeSelection_ok (w : World) (s : Scope) :
  timers_ok w s ->
  timers_ok (fst (onDidChangeSelection (w, s))) (snd (onDidChangeSelection (w, s))).
Proof.
  intros H. destruct (onDidChangeSelection_arms w s H) as (E1 & E2 & E3).
  split.
  - right. exists (next_timer w). auto.
  - rewrite E1, E3. constructor; [lia | constructor].
Qed.

Lemma fire_selection_ok (r : RepoId) (w : World) (s : Scope) :
  timers_ok w s ->
  timers_ok (fst (fire_selection r w s)) (snd (fire_selection r w s)).
Proof.
  unfold fire_selection.
  generalize (filter (Nat.eqb r) (listening s)) as subs.
  intros subs. revert w s.
  induction subs as [|x subs IH]; intros w s H; cbn [fold_left]; [exact H|].
  destruct (onDidChangeSelection (w, s)) as [w1 s1] eqn:E.
  apply IH. pose proof (onDidChangeSelection_ok w s H) as K.
  rewrite E in K. exact K.
Qed.


Lemma Inv_initial : Inv initial.
Proof.
  constructor; simpl; try discriminate; auto.
  - split; reflexivity.
  - split; reflexivity.
  - reflexivity.
Qed.

Lemma Forall_filter_keep {A} (P : A -> Prop) (f : A -> bool) (l : list A) :
  Forall P l -> Forall P (filter f l).
Proof.
  intros H. apply Forall_forall. intros x Hx. apply filter_In in Hx as [Hx _].
  rewrite Forall_forall in H. auto.
Qed.

Lemma log_ok_later (w w' : World) (s s' : Scope) (es : list Effect) :
  stage w = Initialized s -> log_ok w -> forallb later es = true ->
  stage w' = Initialized s' -> repository s' = repository s ->
  listening s' = listening s -> log w' = log w ++ es -> log_ok w'.
Proof.
  unfold log_ok. intros -> (Hi & pre & post & E & Hp & Hq) Hes -> Hr Hl El.
  rewrite Hr, Hl, El. split.
  - rewrite inits_app, Hi, (later_inits _ Hes). reflexivity.
  - exists pre, (post ++ es). rewrite E, forallb_app, Hq, Hes.
    repeat rewrite <- app_assoc. simpl. auto.
Qed.

Lemma later_onDidChange_resumed (s : Scope) (clear status : Outcome) :
  forallb later (onDidChange_resumed s clear status) = true.
Proof. destruct clear, status; reflexivity. Qed.

Lemma later_updateRepository (repos : list Repository) (s : Scope) :
  forallb later (snd (updateRepository repos s)) = true.
Proof. unfold updateRepository. destruct (firstSelectedRepository repos); reflexivity. Qed.

Lemma rid_mark (r : RepoId) (b : bool) (x : Repository) : rid (mark r b x) = rid x.
Proof. unfold mark. destruct (Nat.eqb (rid x) r); reflexivity. Qed.

Lemma pending_timer (w : World) (s : Scope) (t : TimerId) :
  timers_ok w s -> existsb (Nat.eqb t) (timers w) = true ->
  timers w = [t] /\ updateRepositoryTimer s = Some t.
Proof.
  intros [[E | (t' & Et & E)] _] Ex; rewrite E in Ex; simpl in Ex; [discriminate|].
  rewrite orb_false_r in Ex. apply Nat.eqb_eq in Ex. subst t'. auto.
Qed.

Ltac inv_basic Est Hh Hl Hm Htel :=
  constructor; unfold log_ok, activation_ok in *; simpl; rewrite ?Est in *;
  try discriminate; try assumption;
  try (rewrite Forall_app; split;
       [eapply Forall_impl; [|exact Hh]; simpl; intros; lia
       | constructor; [simpl; lia | constructor]]);
  try (intros ? E; injection E as <-; eapply Forall_impl; [|apply (Hl _ eq_refl)];
       simpl; intros; lia);
  try (intros ? E; injection E as <-; auto; fail);
  try (split; intros K; try discriminate; apply Htel in K; discriminate);
  try (split; discriminate);
  try (match goal with
       | H : activation _ = _ |- _ => rewrite H; split; discriminate
       end).

Ltac log_tac Hlog :=
  rewrite ?inits_app, ?existsb_app; 
  first [ destruct Hlog as [-> ->] | destruct Hlog as [[? ->] ->] ]; split; simpl; eauto.

Lemma Inv_set_deactivation (w : World) (p : Promise) :
  Inv w -> Inv (set_deactivation w p).
Proof. intros []. constructor; assumption. Qed.

Lemma Inv_emit_later (w : World) (es : list Effect) :
  forallb later es = true -> Inv w -> Inv (emit w es).
Proof.
  intros Hes HI. pose proof HI as [Ht Hm Hh Hl Hlog Htel Hact].
  constructor; try assumption.
  unfold log_ok in *. simpl.
  destruct (stage w) eqn:Est.
  5: destruct Hlog as [[r Hi] Hw].
  1-3, 5: rewrite inits_app, existsb_app, (later_inits _ Hes), (later_wires _ Hes),
            app_nil_r, orb_false_r; intuition eauto.
  apply (log_ok_later w (emit w es) s s es) in Est as K; auto.
  - unfold log_ok in K. simpl in K. rewrite Est in K. exact K.
  - apply HI.
Qed.

Lemma step_Inv (w : World) (ev : Event) : Inv w -> Inv (step w ev).
Proof.
  intros HI. pose proof HI as [Ht Hm Hh Hl Hlog Htel Hact]. unfold log_ok in Hlog.
  destruct ev; simpl.
  - (* OpenRepository *)
    unfold onDidOpenRelevantRepository; simpl.
    destruct (stage w) eqn:Est. 
    all: try (destruct selected).
    all: inv_basic Est Hh Hl Hm Htel.
    log_tac Hlog.
  - (* CloseRepository *)
    destruct (stage w) eqn:Est; inv_basic Est Hh Hl Hm Htel.
    all: try (apply Forall_filter_keep; assumption).
    all: try (rewrite <- Est; assumption).
  - (* SetSelected *)
    destruct (stage w) eqn:Est; inv_basic Est Hh Hl Hm Htel.
    all: try (apply Forall_map; eapply Forall_impl; [|exact Hh]; intros; simpl; rewrite rid_mark; assumption).
    all: try (rewrite <- Est; assumption).
  - (* SelectionChanged *)
    destruct (stage w) eqn:Est; try exact HI.
    pose proof (fire_selection_frame r w s) as F.
    pose proof (fire_selection_ok r w s Ht) as K.
    destruct (fire_selection r w s) as [w1 s1]. cbn [fst snd] in F, K.
    destruct F as [Fr Fn Ftel _ Fact _ (es & El & Hes) _ Frepo Fpr Frm Fl _].
    constructor; [simpl | simpl | simpl | simpl | | simpl | unfold activation_ok in *; simpl].
    + exact K.
    + intros ? E; injection E as <-. rewrite Fpr, Frm. auto.
    + rewrite Fr, Fn. assumption.
    + intros ? E; injection E as <-. rewrite Fl, Fn. auto.
    + apply (log_ok_later w _ s s1 es); auto. apply HI.
    + rewrite Ftel. split; intros K'; try discriminate. apply Htel in K'; discriminate.
    + rewrite Est in Hact. rewrite Fact. exact Hact.
  - (* Activate *)
    destruct (stage w) eqn:Est; try exact HI.
    unfold activate; simpl.
    destruct (firstSelectedRepository (git_repositories w)) as [r|];
      inv_basic Est Hh Hl Hm Htel.
    + log_tac Hlog.
    + log_tac Hlog.
  - (* LoadConfigurationSettled *)
    unfold loadConfigurationSettled.
    destruct (stage w) eqn:Est; try exact HI.
    destruct (awaited o) as [e|]; destruct awaitedByActivate; unfold init_loaded; simpl.
    all: inv_basic Est Hh Hl Hm Htel.
    all: try (rewrite Ht; split; [left; reflexivity | constructor]).
    all: try (intros ? E; injection E as <-; simpl; apply Forall_map; exact Hh).
    + log_tac Hlog.
    + log_tac Hlog.
    + unfold timers_ok; simpl. rewrite Ht. split; [left; reflexivity | constructor].
    + destruct Hlog as [Hi Hw]. split.
      * rewrite !inits_app, inits_subscriptions, Hi. reflexivity.
      * exists (log w), []. repeat rewrite <- app_assoc. simpl. auto.
    + unfold timers_ok; simpl. rewrite Ht. split; [left; reflexivity | constructor].
    + destruct Hlog as [Hi Hw]. split.
      * rewrite !inits_app, inits_subscriptions, Hi. reflexivity.
      * exists (log w), []. repeat rewrite <- app_assoc. simpl. auto.
  - (* ConfigurationChanged *)
    destruct (stage w) eqn:Est; try exact HI.
    constructor; [simpl | simpl | simpl | simpl | | simpl | unfold activation_ok in *; simpl; rewrite Est in Hact; exact Hact]; rewrite ?Est; auto.
    + intros ? E; injection E as <-. simpl. auto.
    + intros ? E; injection E as <-. simpl. auto.
    + apply (log_ok_later w _ s (set_clearing s (S (clearing s))) [ClearCredentialCache]);
        auto. apply HI.
    + split; intros K; try discriminate. apply Htel in K; discriminate.
  - (* ClearCredentialCacheSettled *)
    destruct (stage w) eqn:Est; try exact HI.
    destruct (clearing s) as [|n] eqn:Ec; try exact HI.
    constructor; [simpl | simpl | simpl | simpl | | simpl | unfold activation_ok in *; simpl; rewrite Est in Hact; exact Hact]; rewrite ?Est; auto.
    + intros ? E; injection E as <-. simpl. auto.
    + intros ? E; injection E as <-. simpl. auto.
    + apply (log_ok_later w _ s (set_clearing s n) (onDidChange_resumed s clear status));
        auto. apply HI. apply later_onDidChange_resumed.
    + split; intros K; try discriminate. apply Htel in K; discriminate.
  - (* TimerFired *)
    destruct (existsb (Nat.eqb t) (timers w)) eqn:Ex; try exact HI.
    destruct (stage w) eqn:Est; try (rewrite Ht in Ex; discriminate).
    destruct (pending_timer w s t Ht Ex) as [Et Eu].
    rewrite Et, remove_single.
    pose proof (later_updateRepository (git_repositories w) s) as Hes.
    unfold updateRepository in *.
    destruct (firstSelectedRepository (git_repositories w)) as [r|];
      (constructor; [simpl | simpl | simpl | simpl | | simpl | unfold activation_ok in *; simpl; rewrite Est in Hact; exact Hact]; rewrite ?Est; auto).
    + split; [left; reflexivity | constructor].
    + intros ? E; injection E as <-. reflexivity.
    + intros ? E; injection E as <-. simpl. auto.
    + eapply (log_ok_later w _ s); [exact Est | apply HI | exact Hes | | | | ]; reflexivity.
    + split; intros K; try discriminate. apply Htel in K; discriminate.
    + split; [left; reflexivity | constructor].
    + eapply (log_ok_later w _ s); [exact Est | apply HI | exact Hes | | | | ]; reflexivity.
  - (* Deactivate *)
    destruct (deactivation w) eqn:Ed; try exact HI.
    unfold deactivate. destruct (telemetry w) eqn:Etel.
    + apply Inv_set_deactivation, Inv_emit_later; [reflexivity | exact HI].
    + apply Inv_set_deactivation, HI.
  - (* ShutdownSettled *)
    unfold shutdownSettled.
    destruct (deactivation w); try exact HI.
    destruct (awaited o); apply Inv_set_deactivation, HI.
Qed.

Lemma run_Inv (w : World) (evs : list Event) : Inv w -> Inv (run w evs).
Proof.
  revert w. induction evs as [|ev evs IH]; intros w H; simpl; [exact H|].
  apply IH, step_Inv, H.
Qed.

Lemma reachable_Inv (w : World) : reachable w -> Inv w.
Proof. intros [evs ->]. apply run_Inv, Inv_initial. Qed.

(** ** Stability of the initialized stage *)

(** Once [init] has run to its end the extension stays initialized; the
    repository [init] was called with and the subscriptions it made are
    never replaced. *)
Lemma step_initialized (w : World) (s : Scope) (ev : Event) :
  stage w = Initialized s ->
  exists s', stage (step w ev) = Initialized s' /\
             repository s' = repository s /\ listening s' = listening s.
Proof.
  intros Est. destruct ev; simpl.
  - unfold onDidOpenRelevantRepository; simpl. rewrite Est. simpl. eauto.
  - simpl. eauto.
  - simpl. eauto.
  - rewrite Est.
    pose proof (fire_selection_frame r w s) as F.
    destruct (fire_selection r w s) as [w1 s1]. cbn [fst snd] in F.
    simpl. exists s1. split; [reflexivity|]. split; apply F.
  - rewrite Est. eauto.
  - unfold loadConfigurationSettled. rewrite Est. eauto.
  - rewrite Est. simpl. eauto.
  - rewrite Est. destruct (clearing s); simpl; eauto.
  - destruct (existsb (Nat.eqb t) (timers w)); [|eauto].
    simpl. rewrite Est. unfold updateRepository.
    destruct (firstSelectedRepository (git_repositories w)); simpl; eauto.
  - destruct (deactivation w); eauto. unfold deactivate.
    destruct (telemetry w); simpl; eauto.
  - unfold shutdownSettled. destruct (deactivation w); eauto.
    destruct (awaited o); simpl; eauto.
Qed.

Lemma run_initialized (evs : list Event) (w : World) (s : Scope) :
  stage w = Initialized s ->
  exists s', stage (run w evs) = Initialized s' /\
             repository s' = repository s /\ listening s' = listening s.
Proof.
  revert w s. induction evs as [|ev evs IH]; intros w s Est; simpl; [eauto|].
  destruct (step_initialized w s ev Est) as (s1 & E1 & R1 & L1).
  destruct (IH _ _ E1) as (s2 & E2 & R2 & L2).
  exists s2. repeat split; congruence.
Qed.

Lemma step_next_repository (w : World) (ev : Event) :
  next_repository w <= next_repository (step w ev).
Proof.
  destruct ev; simpl; auto.
  - unfold onDidOpenRelevantRepository; simpl.
    destruct (stage w); try destruct selected; simpl; lia.
  - destruct (stage w); auto.
    pose proof (fire_selection_frame r w s) as F.
    destruct (fire_selection r w s) as [w1 s1]. cbn [fst snd] in F.
    simpl. destruct F as [_ -> _]. lia.
  - destruct (stage w); auto. unfold activate.
    destruct (firstSelectedRepository _); simpl; lia.
  - unfold loadConfigurationSettled. destruct (stage w); auto.
    destruct (awaited o), awaitedByActivate; simpl; lia.
  - destruct (stage w); simpl; lia.
  - destruct (stage w); auto. destruct (clearing s); simpl; lia.
  - destruct (existsb (Nat.eqb t) (timers w)); auto. simpl.
    destruct (stage w); simpl; auto. unfold updateRepository.
    destruct (firstSelectedRepository _); simpl; lia.
  - destruct (deactivation w); auto. unfold deactivate.
    destruct (telemetry w); simpl; lia.
  - unfold shutdownSettled. destruct (deactivation w); auto.
    destruct (awaited o); simpl; lia.
Qed.

Lemma run_next_repository (evs : list Event) (w : World) :
  next_repository w <= next_repository (run w evs).
Proof.
  revert w. induction evs as [|ev evs IH]; intros w; simpl; [lia|].
  pose proof (step_next_repository w ev). pose proof (IH (step w ev)). lia.
Qed.

Lemma run_app (w : World) (evs1 evs2 : list Event) :
  run w (evs1 ++ evs2) = run (run w evs1) evs2.
Proof. apply fold_left_app. Qed.

Lemma reachable_run (w : World) (evs : list Event) :
  reachable w -> reachable (run w evs).
Proof. intros [evs0 ->]. exists (evs0 ++ evs). symmetry. apply run_app. Qed.

Lemma reachable_step (w : World) (ev : Event) :
  reachable w -> reachable (step w ev).
Proof. intros H. apply (reachable_run w [ev] H). Qed.





Lemma step_fire (w : World) (s : Scope) (t : TimerId) :
  stage w = Initialized s -> timers w = [t] ->
  step w (TimerFired t) =
  emit (set_stage (set_timers w []) (Initialized (fst (updateRepository (git_repositories w) s))))
       (snd (updateRepository (git_repositories w) s)).
Proof.
  intros Est Et. simpl. rewrite Et. simpl. rewrite Nat.eqb_refl. simpl.
  destruct (Nat.eq_dec t t) as [_|N]; [|contradiction].
  rewrite Est. destruct (updateRepository (git_repositories w) s). reflexivity.
Qed.





(** ** Resolution of the active repository *)

Lemma firstSelectedRepository_none (repos : list Repository) :
  (forall r, In r repos -> ui_selected r = false) ->
  firstSelectedRepository repos = None.
Proof.
  intros H. unfold firstSelectedRepository.
  destruct (filter ui_selected repos) as [|x l] eqn:E; [reflexivity|].
  assert (K : In x (filter ui_selected repos)) by (rewrite E; left; reflexivity).
  apply filter_In in K as [Hin Hsel]. rewrite (H x Hin) in Hsel. discriminate.
Qed.

(** The first selected repository is in the collection, is selected, and no
    repository enumerated before it is. *)
Lemma firstSelectedRepository_some (repos : list Repository) (r : Repository) :
  firstSelectedRepository repos = Some r ->
  exists before after, repos = before ++ r :: after /\ ui_selected r = true /\
                       forall x, In x before -> ui_selected x = false.
Proof.
  unfold firstSelectedRepository.
  induction repos as [|x repos IH]; simpl; [discriminate|].
  destruct (ui_selected x) eqn:Ex; simpl.
  - intros E. injection E as ->. exists [], repos. simpl. intuition.
  - intros E. destruct (IH E) as (before & after & -> & Hr & Hb).
    exists (x :: before), after. simpl. intuition. subst. exact Ex.
Qed.

(** When the lookup finds nothing, nothing is selected. *)
Lemma firstSelectedRepository_unselected (repos : list Repository) :
  firstSelectedRepository repos = None ->
  forall x, In x repos -> ui_selected x = false.
Proof.
  unfold firstSelectedRepository. intros H x Hx.
  destruct (ui_selected x) eqn:Ex; [|reflexivity].
  assert (K : In x (filter ui_selected repos)) by (apply filter_In; auto).
  destruct (filter ui_selected repos); [destruct K | discriminate H].
Qed.

(** The firing of the pending timer when a repository is selected: lines
    64-65 run back to back within the one callback. *)
Lemma fire_assigns (w : World) (s : Scope) (t : TimerId) (r : Repository) :
  Inv w -> stage w = Initialized s -> In t (timers w) ->
  firstSelectedRepository (git_repositories w) = Some r ->
  exists s',
    stage (step w (TimerFired t)) = Initialized s' /\
    pr_repository (prManager s') = rid r /\
    rm_repository (reviewManager s') = rid r /\
    log (step w (TimerFired t)) =
      log w ++ [SetPrManagerRepository (rid r); SetReviewManagerRepository (rid r)].
Proof.
  intros HI Est Hin Hsel.
  pose proof (inv_timers w HI) as Hok. rewrite Est in Hok.
  assert (Ex : existsb (Nat.eqb t) (timers w) = true).
  { apply existsb_exists. exists t. split; [exact Hin | apply Nat.eqb_refl]. }
  destruct (pending_timer w s t Hok Ex) as [Et _].
  rewrite (step_fire w s t Est Et). unfold updateRepository. rewrite Hsel.
  simpl. eexists. split; [reflexivity|]. simpl. auto.
Qed.

(** Claim C5.  In every reachable world both managers hold the same
    repository, and a firing of the pending timer that finds a first
    selected repository [r] writes [r] to the Pull-Request Manager and to
    the Review Manager within that one step, with nothing else done in
    between: the world after the step has both pointing at [r]. *)
Theorem managers_assigned_together (w : World) (s : Scope) :
  reachable w -> stage w = Initialized s ->
  pr_repository (prManager s) = rm_repository (reviewManager s) /\
  forall t r,
    In t (timers w) ->
    firstSelectedRepository (git_repositories w) = Some r ->
    exists s',
      stage (step w (TimerFired t)) = Initialized s' /\
      pr_repository (prManager s') = rid r /\
      rm_repository (reviewManager s') = rid r /\
      log (step w (TimerFired t)) =
        log w ++ [SetPrManagerRepository (rid r); SetReviewManagerRepository (rid r)].
Proof.
  intros Hre Est. pose proof (reachable_Inv w Hre) as HI. split.
  - apply (inv_managers w HI s Est).
  - intros t r Hin Hsel. apply (fire_assigns w s t r HI Est Hin Hsel).
Qed.

(** Claim C6.  When the pending timer fires and no repository of the
    collection is selected, the world after the firing is the world before
    it with the timer taken off the host's table: the scope of [init], with
    both managers and their repository, the log and the collection are
    unchanged. *)
Theorem timer_finds_nothing_selected (w : World) (s : Scope) (t : TimerId) :
  stage w = Initialized s ->
  In t (timers w) ->
  (forall r, In r (git_repositories w) -> ui_selected r = false) ->
  let w' := step w (TimerFired t) in
  w' = set_timers w (remove Nat.eq_dec t (timers w)) /\
  stage w' = Initialized s /\
  log w' = log w /\
  git_repositories w' = git_repositories w.
Proof.
  intros Est Hin Hnone.
  assert (Ex : existsb (Nat.eqb t) (timers w) = true).
  { apply existsb_exists. exists t. split; [exact Hin | apply Nat.eqb_refl]. }
  assert (E : step w (TimerFired t) = set_timers w (remove Nat.eq_dec t (timers w))).
  { simpl. rewrite Ex. simpl. rewrite Est. unfold updateRepository.
    rewrite (firstSelectedRepository_none _ Hnone).
    destruct w; simpl in *. unfold emit, set_stage, set_timers; simpl.
    rewrite app_nil_r, Est. reflexivity. }
  cbv zeta. rewrite E. simpl. auto.
Qed.

(** ** Repositories opened after initialization *)

Lemma step_unwatched (w : World) (s : Scope) (r : RepoId) :
  stage w = Initialized s -> ~ In r (listening s) ->
  step w (SelectionChanged r) = w.
Proof.
  intros Est Hnot. simpl. rewrite Est. unfold fire_selection.
  assert (E : filter (Nat.eqb r) (listening s) = []).
  { destruct (filter (Nat.eqb r) (listening s)) as [|x l] eqn:E; [reflexivity|].
    assert (K : In x (filter (Nat.eqb r) (listening s))) by (rewrite E; left; reflexivity).
    apply filter_In in K as [Hin Heq]. apply Nat.eqb_eq in Heq. subst x. contradiction. }
  rewrite E. simpl. apply set_stage_same, Est.
Qed.

Lemma step_loaded (w0 : World) (repo : RepoId) (byActivate : bool) :
  stage w0 = Loading repo byActivate ->
  exists s, stage (step w0 (LoadConfigurationSettled Returns)) = Initialized s /\
            repository s = repo /\
            listening s = map rid (git_repositories w0) /\
            prManager s = {| pr_repository := repo |} /\
            reviewManager s = {| rm_repository := repo |}.
Proof.
  intros Est. simpl. unfold loadConfigurationSettled. rewrite Est. simpl.
  destruct byActivate; simpl; eexists; (split; [reflexivity|]); simpl; auto.
Qed.

(** Claim C10.  The listener is attached to the repositories of the
    collection at the moment the configuration has loaded and [init] runs on,
    and to no other.  A repository the provider opens at any later moment is
    not among them, and a selection change it reports at any moment after
    that leaves the world as it is: no timer, no assignment.  The firing of
    a pending timer still reads the whole collection, late repositories
    included. *)
Theorem late_repository_not_watched
    (w0 : World) (repo : RepoId) (byActivate : bool)
    (evs : list Event) (b : bool) (evs' : list Event) :
  reachable w0 -> stage w0 = Loading repo byActivate ->
  let w := step w0 (LoadConfigurationSettled Returns) in
  let w1 := run w evs in
  let r := next_repository w1 in
  let w2 := run (step w1 (OpenRepository b)) evs' in
  (exists s, stage w = Initialized s /\ listening s = map rid (git_repositories w0)) /\
  git_repositories (step w1 (OpenRepository b)) =
    git_repositories w1 ++ [{| rid := r; ui_selected := b |}] /\
  ~ In r (map rid (git_repositories w0)) /\
  step w2 (SelectionChanged r) = w2 /\
  forall t x,
    In t (timers w2) -> firstSelectedRepository (git_repositories w2) = Some x ->
    exists s', stage (step w2 (TimerFired t)) = Initialized s' /\
               pr_repository (prManager s') = rid x /\
               rm_repository (reviewManager s') = rid x.
Proof.
  intros Hre Est. cbv zeta.
  pose proof (reachable_Inv w0 Hre) as HI0.
  destruct (step_loaded w0 repo byActivate Est) as (s & Es & _ & Ls & _).
  set (w := step w0 (LoadConfigurationSettled Returns)) in *.
  assert (HI : Inv w) by (apply step_Inv, HI0).
  destruct (run_initialized evs w s Es) as (s1 & Es1 & _ & Ls1).
  set (w1 := run w evs) in *.
  assert (HI1 : Inv w1) by (apply run_Inv, HI).
  destruct (step_initialized w1 s1 (OpenRepository b) Es1) as (s1' & Es1' & _ & Ls1').
  destruct (run_initialized evs' _ s1' Es1') as (s2 & Es2 & _ & Ls2).
  assert (Hnot : ~ In (next_repository w1) (listening s)).
  { intros Hin. pose proof (inv_listening w HI s Es) as Hl.
    rewrite Forall_forall in Hl. apply Hl in Hin.
    pose proof (run_next_repository evs w). fold w1 in H. lia. }
  split; [eauto|]. split; [|split; [|split]].
  - simpl. unfold onDidOpenRelevantRepository. simpl. rewrite Es1. reflexivity.
  - rewrite <- Ls. exact Hnot.
  - apply (step_unwatched _ s2 _ Es2). rewrite Ls2, Ls1', Ls1. exact Hnot.
  - intros t x Hin Hsel.
    destruct (fire_assigns _ s2 t x (run_Inv _ evs' (step_Inv _ _ HI1)) Es2 Hin Hsel)
      as (s' & A & B & C & _).
    eauto.
Qed.

Lemma step_deactivation_pending (w : World) (ev : Event) :
  deactivation w = Pending -> settles_shutdown ev = false ->
  deactivation (step w ev) = Pending.
Proof.
  intros Ed Hev. destruct ev; simpl; try discriminate; auto.
  - unfold onDidOpenRelevantRepository; simpl.
    destruct (stage w); try destruct selected; simpl; auto.
  - destruct (stage w); auto.
    pose proof (fire_selection_frame r w s) as F.
    destruct (fire_selection r w s) as [w1 s1]. cbn [fst snd] in F.
    simpl. rewrite (lf_deactivation _ _ _ _ F). exact Ed.
  - destruct (stage w); auto. unfold activate.
    destruct (firstSelectedRepository _); simpl; auto.
  - unfold loadConfigurationSettled. destruct (stage w); auto.
    destruct (awaited o), awaitedByActivate; simpl; auto.
  - destruct (stage w); simpl; auto.
  - destruct (stage w); auto. destruct (clearing s); simpl; auto.
  - destruct (existsb (Nat.eqb t) (timers w)); auto. simpl.
    destruct (stage w); simpl; auto. unfold updateRepository.
    destruct (firstSelectedRepository _); simpl; auto.
  - rewrite Ed. exact Ed.
Qed.

(** Claim C9.  A telemetry session exists exactly when [activate] has run.
    With a session, [deactivate] calls its shutdown and its promise stays
    pending, whatever else the host dispatches, until the shutdown has
    settled, and then settles the same way; without a session it fulfils at
    once and makes no call. *)
Theorem deactivate_awaits_shutdown (w : World) (o : Outcome) :
  reachable w -> deactivation w = NotCalled ->
  let w1 := step w Deactivate in
  (telemetry w = None <-> stage w = Inactive) /\
  match telemetry w with
  | Some _ =>
      log w1 = log w ++ [TelemetryShutdown] /\
      deactivation w1 = Pending /\
      (forall ev, settles_shutdown ev = false -> deactivation (step w1 ev) = Pending) /\
      deactivation (step w1 (ShutdownSettled o)) =
        match awaited o with
        | None => Fulfilled
        | Some e => Rejected e
        end
  | None =>
      log w1 = log w /\ deactivation w1 = Fulfilled
  end.
Proof.
  intros Hre Ed. cbv zeta. split; [apply (inv_telemetry w (reachable_Inv w Hre))|].
  simpl. rewrite Ed. unfold deactivate.
  destruct (telemetry w) as [tel|]; simpl; [|auto].
  split; [reflexivity|]. split; [reflexivity|]. split.
  - intros ev Hev. apply step_deactivation_pending; [reflexivity | exact Hev].
  - unfold shutdownSettled. simpl. destruct (awaited o); reflexivity.
Qed.

Lemma step_discovered (w : World) (ev : Event) :
  discovered w ->
  discovered (step w ev) /\ inits (log (step w ev)) = inits (log w).
Proof.
  unfold discovered. intros H.
  destruct (stage w) eqn:Est; try contradiction.
  - (* Loading *)
    destruct ev; simpl; unfold onDidOpenRelevantRepository, loadConfigurationSettled;
      simpl; rewrite ?Est; auto.
    + destruct (awaited o), awaitedByActivate; simpl; auto.
      * rewrite inits_app, app_nil_r. auto.
      * rewrite !inits_app, inits_subscriptions. simpl. rewrite !app_nil_r. auto.
      * rewrite !inits_app, inits_subscriptions. simpl. rewrite !app_nil_r. auto.
    + destruct (existsb (Nat.eqb t) (timers w)); simpl; rewrite ?Est; auto.
    + destruct (deactivation w); rewrite ?Est; auto. unfold deactivate.
      destruct (telemetry w); simpl; rewrite ?Est; auto.
      rewrite inits_app, app_nil_r. auto.
    + unfold shutdownSettled. destruct (deactivation w); rewrite ?Est; auto.
      destruct (awaited o); simpl; rewrite Est; auto.
  - (* Initialized *)
    destruct (step_initialized w s ev Est) as (s' & Es' & _).
    rewrite Es'. split; [exact I|].
    destruct ev; simpl; unfold onDidOpenRelevantRepository, loadConfigurationSettled;
      simpl; rewrite ?Est; auto.
    + pose proof (fire_selection_frame r w s) as F.
      destruct (fire_selection r w s) as [w1 s1]. cbn [fst snd] in F.
      simpl. destruct F as [_ _ _ _ _ _ (es & El & Hes) _ _ _ _ _ _].
      rewrite El, inits_app, (later_inits _ Hes), app_nil_r. auto.
    + simpl. rewrite inits_app, app_nil_r. auto.
    + destruct (clearing s); simpl; auto.
      rewrite inits_app, (later_inits _ (later_onDidChange_resumed s clear status)),
        app_nil_r. auto.
    + destruct (existsb (Nat.eqb t) (timers w)); simpl; rewrite ?Est; auto.
      pose proof (later_updateRepository (git_repositories w) s) as Hes.
      destruct (updateRepository (git_repositories w) s) as [s1 es]. simpl in *.
      rewrite inits_app, (later_inits _ Hes), app_nil_r. auto.
    + destruct (deactivation w); auto. unfold deactivate.
      destruct (telemetry w); simpl; auto.
      rewrite inits_app, app_nil_r. auto.
    + unfold shutdownSettled. destruct (deactivation w); auto.
      destruct (awaited o); simpl; auto.
  - (* Aborted *)
    destruct ev; simpl; unfold onDidOpenRelevantRepository, loadConfigurationSettled;
      simpl; rewrite ?Est; auto.
    + destruct (existsb (Nat.eqb t) (timers w)); simpl; rewrite ?Est; auto.
    + destruct (deactivation w); rewrite ?Est; auto. unfold deactivate.
      destruct (telemetry w); simpl; rewrite ?Est; auto.
      rewrite inits_app, app_nil_r. auto.
    + unfold shutdownSettled. destruct (deactivation w); rewrite ?Est; auto.
      destruct (awaited o); simpl; rewrite Est; auto.
Qed.

Lemma run_discovered (evs : list Event) (w : World) :
  discovered w -> inits (log (run w evs)) = inits (log w).
Proof.
  revert w. induction evs as [|ev evs IH]; intros w H; simpl; [reflexivity|].
  destruct (step_discovered w ev H) as [H1 E1]. rewrite (IH _ H1). exact E1.
Qed.

Lemma run_discovering (evs : list Event) (w : World) :
  stage w = Discovering ->
  inits (log (run w evs)) =
  inits (log w) ++ match first_relevant (next_repository w) evs with
                   | Some r => [r]
                   | None => []
                   end.
Proof.
  revert w. induction evs as [|ev evs IH]; intros w Est; simpl.
  - rewrite app_nil_r. reflexivity.
  - assert (Same : forall w', stage w' = Discovering ->
                     next_repository w' = next_repository w ->
                     inits (log w') = inits (log w) ->
                     inits (log (run w' evs)) =
                     inits (log w) ++ match first_relevant (next_repository w) evs with
                                      | Some r => [r]
                                      | None => []
                                      end).
    { intros w' E1 E2 E3. rewrite (IH w' E1), E2, E3. reflexivity. }
    destruct ev; simpl; unfold loadConfigurationSettled; rewrite ?Est;
      try (apply Same; auto; fail).
    + unfold onDidOpenRelevantRepository. simpl. rewrite ?Est.
      destruct selected.
      * rewrite run_discovered by exact I. simpl.
        rewrite !inits_app. simpl. rewrite app_nil_r. reflexivity.
      * rewrite IH by reflexivity. reflexivity.
    + destruct (existsb (Nat.eqb t) (timers w)); simpl; rewrite ?Est;
        apply Same; auto.
    + destruct (deactivation w); try (apply Same; auto; fail).
      unfold deactivate. destruct (telemetry w); simpl; apply Same; auto.
      simpl. rewrite inits_app, app_nil_r. reflexivity.
    + unfold shutdownSettled.
      destruct (deactivation w); try (apply Same; auto; fail).
      destruct (awaited o); apply Same; auto.
Qed.

(** Claim C3.  When [activate] runs, either some repository of the
    collection is selected, and then [init] is called exactly once in the
    whole run, with the first selected repository in enumeration order; or
    no repository of the collection is selected, and then [init] is called
    with the first repository the provider opens selected afterwards,
    exactly once, and with no other (when no such repository is opened it
    is not called). *)
Theorem activate_initializes_once (w0 : World) (evs : list Event) :
  reachable w0 -> stage w0 = Inactive ->
  let w := run (step w0 Activate) evs in
  match firstSelectedRepository (git_repositories w0) with
  | Some r =>
      (exists before after,
          git_repositories w0 = before ++ r :: after /\ ui_selected r = true /\
          forall x, In x before -> ui_selected x = false) /\
      inits (log w) = [rid r]
  | None =>
      (forall x, In x (git_repositories w0) -> ui_selected x = false) /\
      inits (log w) = match first_relevant (next_repository w0) evs with
                      | Some r => [r]
                      | None => []
                      end
  end.
Proof.
  intros Hre Est. cbv zeta.
  pose proof (reachable_Inv w0 Hre) as HI.
  pose proof (inv_log w0 HI) as Hlog. unfold log_ok in Hlog. rewrite Est in Hlog.
  destruct Hlog as [Hi _].
  simpl. rewrite Est. unfold activate. simpl.
  destruct (firstSelectedRepository (git_repositories w0)) as [r|] eqn:Esel.
  - split; [apply firstSelectedRepository_some; exact Esel|].
    rewrite run_discovered by exact I. simpl.
    rewrite !inits_app, Hi. reflexivity.
  - split; [apply firstSelectedRepository_unselected; exact Esel|].
    rewrite run_discovering by reflexivity. simpl.
    rewrite !inits_app, Hi. reflexivity.
Qed.

(** ** The startup event *)

Lemma startups_cons (e : Effect) (l : list Effect) :
  startups (e :: l) = (if is_startup e then 1 else 0) + startups l.
Proof. unfold startups. simpl. destruct (is_startup e); reflexivity. Qed.

(** Two ways of cutting a log at a startup event agree when neither prefix
    holds one. *)
Lemma startup_cut_unique (a a' b b' : list Effect) :
  startups a = 0 -> startups a' = 0 ->
  a ++ TelemetryOn "startup" :: b = a' ++ TelemetryOn "startup" :: b' ->
  a = a'.
Proof.
  revert a'. induction a as [|x a IH]; intros [|x' a'] Ha Ha' E; simpl in E.
  - reflexivity.
  - injection E as <- _. rewrite startups_cons in Ha'. simpl in Ha'. discriminate.
  - injection E as -> _. rewrite startups_cons in Ha. simpl in Ha. discriminate.
  - injection E as <- E. rewrite startups_cons in Ha, Ha'.
    f_equal. apply IH; [lia | lia | exact E].
Qed.

Lemma startups_log (w : World) :
  Inv w ->
  startups (log w) = match stage w with
                     | Initialized _ => 1
                     | _ => 0
                     end.
Proof.
  intros HI. pose proof (inv_log w HI) as H. unfold log_ok in H.
  destruct (stage w); try (apply unwired_startups, H).
  destruct H as (_ & pre & post & -> & Hpre & Hpost).
  rewrite !startups_app, startups_wiring, startups_cons, (unwired_startups _ Hpre),
    (later_startups _ Hpost). reflexivity.
Qed.

(** Claim C7, as amended.  In every reachable world the startup event has
    been emitted once if [init] has run to its end and not at all
    otherwise; and wherever the log is cut at a startup event, what precedes
    it ends with the calls of lines 27-69: the configuration subscription,
    the URI handler, the construction of both managers, the registration of
    the commands and the selection listeners. *)
Theorem startup_once_after_initialization (w : World) :
  reachable w ->
  startups (log w) = match stage w with
                     | Initialized _ => 1
                     | _ => 0
                     end /\
  forall pre post,
    log w = pre ++ TelemetryOn "startup" :: post ->
    exists s before,
      stage w = Initialized s /\
      pre = before ++ wiring (repository s) (listening s) /\
      In (NewPullRequestManager (repository s)) pre /\
      In (NewReviewManager (repository s)) pre /\
      startups pre = 0 /\ startups post = 0.
Proof.
  intros Hre. pose proof (reachable_Inv w Hre) as HI.
  split; [apply startups_log, HI|].
  intros pre post E.
  pose proof (startups_log w HI) as Hc.
  pose proof (inv_log w HI) as H. unfold log_ok in H.
  assert (Hsum : startups (log w) = startups pre + 1 + startups post).
  { rewrite E, startups_app, startups_cons. simpl. lia. }
  destruct (stage w) as [| | |s|] eqn:Est; try lia.
  destruct H as (_ & pre0 & post0 & E0 & Hpre0 & Hpost0).
  assert (Hpre : startups pre = 0) by lia.
  assert (Hpost : startups post = 0) by lia.
  assert (Ecut : pre = pre0 ++ wiring (repository s) (listening s)).
  { apply (startup_cut_unique _ _ post post0 Hpre).
    - rewrite startups_app, startups_wiring, (unwired_startups _ Hpre0). reflexivity.
    - rewrite <- E, E0, <- app_assoc. reflexivity. }
  exists s, pre0. repeat split; auto.
  - rewrite Ecut. apply in_or_app. right. unfold wiring. simpl. auto.
  - rewrite Ecut. apply in_or_app. right. unfold wiring. simpl. auto 7.
Qed.

(** ** Failure of the configuration load *)

Lemma step_aborted (w : World) (e : Error) (ev : Event) :
  stage w = Aborted e ->
  stage (step w ev) = Aborted e /\ activation (step w ev) = activation w.
Proof.
  intros Est.
  destruct ev; simpl; unfold onDidOpenRelevantRepository, loadConfigurationSettled;
    simpl; rewrite ?Est; auto.
  - destruct (existsb (Nat.eqb t) (timers w)); simpl; rewrite ?Est; auto.
  - destruct (deactivation w); auto. unfold deactivate.
    destruct (telemetry w); simpl; auto.
  - unfold shutdownSettled. destruct (deactivation w); auto.
    destruct (awaited o); simpl; auto.
Qed.

Lemma run_aborted (evs : list Event) (w : World) (e : Error) :
  stage w = Aborted e ->
  stage (run w evs) = Aborted e /\ activation (run w evs) = activation w.
Proof.
  revert w. induction evs as [|ev evs IH]; intros w Est; simpl; [auto|].
  destruct (step_aborted w e ev Est) as [E1 A1].
  destruct (IH _ E1) as [E2 A2]. split; congruence.
Qed.

(** Claim C8.  When the load of the configuration fails with [e], [init]
    stops there: its promise rejects with [e], which rejects the promise of
    [activate] when [activate] awaits it (line 87) and reaches the host as an
    unhandled rejection when the repository-opened listener started it
    (line 90).  Nothing has been constructed or subscribed before, and
    whatever the host dispatches later, nothing is: no configuration
    subscription, no URI handler, no selection listener, no manager, no
    startup event, no timer. *)
Theorem configuration_failure_aborts
    (w : World) (repo : RepoId) (byActivate : bool) (o : Outcome) (e : Error)
    (evs : list Event) :
  reachable w -> stage w = Loading repo byActivate -> awaited o = Some e ->
  let w' := step w (LoadConfigurationSettled o) in
  existsb wires (log w) = false /\
  stage w' = Aborted e /\
  (if byActivate
   then activation w = Pending /\ activation w' = Rejected e /\ log w' = log w
   else activation w = Fulfilled /\ activation w' = Fulfilled /\
        log w' = log w ++ [UnhandledRejection e]) /\
  stage (run w' evs) = Aborted e /\
  activation (run w' evs) = activation w' /\
  existsb wires (log (run w' evs)) = false /\
  startups (log (run w' evs)) = 0 /\
  timers (run w' evs) = [].
Proof.
  intros Hre Est Ho. cbv zeta.
  pose proof (reachable_Inv w Hre) as HI.
  pose proof (inv_log w HI) as Hlog. unfold log_ok in Hlog. rewrite Est in Hlog.
  pose proof (inv_activation w HI) as Hact. unfold activation_ok in Hact.
  rewrite Est in Hact.
  set (w' := step w (LoadConfigurationSettled o)).
  assert (Est' : stage w' = Aborted e).
  { unfold w'. simpl. unfold loadConfigurationSettled. rewrite Est, Ho.
    destruct byActivate; reflexivity. }
  assert (HI' : Inv (run w' evs)) by (apply run_Inv, step_Inv, HI).
  destruct (run_aborted evs w' e Est') as [Er Ea].
  pose proof (inv_log _ HI') as Hlog'. unfold log_ok in Hlog'. rewrite Er in Hlog'.
  pose proof (inv_timers _ HI') as Ht'. rewrite Er in Ht'.
  split; [apply Hlog|]. split; [exact Est'|]. split.
  - unfold w'. simpl. unfold loadConfigurationSettled. rewrite Est, Ho.
    destruct byActivate; simpl; rewrite ?Hact; auto.
  - repeat split; auto; [apply Hlog' | apply unwired_startups, Hlog'].
Qed.

(** ** The configuration-change handler *)

(** The repository the handler refreshes is the one [init] was called
    with. *)
Lemma bound_repository (w : World) (s : Scope) :
  Inv w -> stage w = Initialized s -> inits (log w) = [repository s].
Proof.
  intros HI Est. pose proof (inv_log w HI) as H. unfold log_ok in H.
  rewrite Est in H. apply H.
Qed.

(** Claim C1, as amended.  Once [init] has run to its end, a configuration
    change makes the handler ask the Pull-Request Manager to clear its
    credential cache and suspend; when that call has succeeded, the handler
    asks for the status of the repository [init] was called with.  That
    repository is the same in every later world, whatever the managers have
    been given since. *)
Theorem configuration_change_refreshes_bound_repository
    (w : World) (s : Scope) (status : Outcome) (evs : list Event) :
  reachable w -> stage w = Initialized s ->
  inits (log w) = [repository s] /\
  log (step w ConfigurationChanged) = log w ++ [ClearCredentialCache] /\
  stage (step w ConfigurationChanged) = Initialized (set_clearing s (S (clearing s))) /\
  (forall n, clearing s = S n ->
     stage (step w (ClearCredentialCacheSettled Returns status)) =
       Initialized (set_clearing s n) /\
     exists rest,
       log (step w (ClearCredentialCacheSettled Returns status)) =
         log w ++ RepositoryStatus (repository s) :: rest) /\
  exists s', stage (run w evs) = Initialized s' /\ repository s' = repository s.
Proof.
  intros Hre Est. pose proof (reachable_Inv w Hre) as HI.
  split; [apply (bound_repository w s HI Est)|].
  simpl. rewrite Est. simpl. split; [reflexivity|]. split; [reflexivity|]. split.
  - intros n En. rewrite En. simpl. split; [reflexivity|].
    unfold onDidChange_resumed. simpl. eauto.
  - destruct (run_initialized evs w s Est) as (s' & E & R & _). eauto.
Qed.

(** What the handler does with each way its two calls can end. *)
Lemma handler_failures (s : Scope) (clear status : Outcome) :
  onDidChange_resumed s clear status =
  match clear, status with
  | Returns, Returns => [RepositoryStatus (repository s)]
  | Returns, Throws e =>
      [RepositoryStatus (repository s); ShowErrorMessage (formatError e)]
  | Returns, Rejects e =>
      [RepositoryStatus (repository s); UnhandledRejection e]
  | Throws e, _ | Rejects e, _ => [ShowErrorMessage (formatError e)]
  end.
Proof. destruct clear, status; reflexivity. Qed.

(** Claim C1 as stated fails.  After the selection has moved from
    repository 0 to repository 1 and the timer has fired, both managers hold
    repository 1, and the handler of a configuration change still asks
    repository 0 for its status. *)
Lemma active_repository_not_refreshed :
  (exists s, stage switched = Initialized s /\
             pr_repository (prManager s) = 1 /\
             rm_repository (reviewManager s) = 1 /\
             clearing s = 1) /\
  log (step switched (ClearCredentialCacheSettled Returns Returns)) =
    log switched ++ [RepositoryStatus 0] /\
  ~ In (RepositoryStatus 1)
       (log (step switched (ClearCredentialCacheSettled Returns Returns))).
Proof.
  split; [|split].
  - eexists. split; [vm_compute; reflexivity|]. vm_compute. auto.
  - vm_compute. reflexivity.
  - vm_compute. intros H.
    repeat (destruct H as [H | H]; [discriminate H|]). exact H.
Qed.

(** Claim C1, as amended, on the run in which the selection has moved. *)
Lemma configuration_change_refreshes_bound_repository_witness :
  inits (log switched) = [0] /\
  exists rest,
    log (step switched (ClearCredentialCacheSettled Returns Returns)) =
      log switched ++ RepositoryStatus 0 :: rest.
Proof.
  destruct (configuration_change_refreshes_bound_repository
              switched
              {| repository := 0;
                 prManager := {| pr_repository := 1 |};
                 reviewManager := {| rm_repository := 1 |};
                 updateRepositoryTimer := Some 2;
                 listening := [0; 1];
                 clearing := 1 |}
              Returns [])
    as (Hi & _ & _ & Hs & _).
  - exists ([OpenRepository true; OpenRepository false; Activate;
             LoadConfigurationSettled Returns]
            ++ selection_moves ++ [TimerFired 2; ConfigurationChanged]).
    vm_compute. reflexivity.
  - vm_compute. reflexivity.
  - split; [exact Hi|]. apply (Hs 0 eq_refl).
Defined.

(** Claim C2 at a failing input.  The credential cache clears and the
    promise of [repository.status()] rejects: line 32 does not await it, so
    the catch of line 34 never sees the rejection, no error message is
    shown, and the rejection reaches the host unhandled. *)
Theorem status_rejection_not_caught :
  log (step configured (ClearCredentialCacheSettled Returns (Rejects "git status failed"))) =
    log configured ++ [RepositoryStatus 0; UnhandledRejection "git status failed"] /\
  forall m,
    ~ In (ShowErrorMessage m)
         (log (step configured
                    (ClearCredentialCacheSettled Returns (Rejects "git status failed")))).
Proof.
  split; [vm_compute; reflexivity|].
  intros m. vm_compute. intros H.
  repeat (destruct H as [H | H]; [discriminate H|]). exact H.
Qed.

(** Claim C3 on both paths.  With repositories 0 (unselected), 1 and 2
    (selected) open as [activate] runs, [init] is called with repository 1
    and a repository opened selected later changes nothing.  With the one
    open repository unselected, [init] waits for the first repository
    opened selected, repository 2, and the next one changes nothing. *)
Lemma activate_initializes_once_witness :
  inits (log (run (step (run initial [OpenRepository false; OpenRepository true;
                                      OpenRepository true]) Activate)
                  [OpenRepository true; LoadConfigurationSettled Returns;
                   OpenRepository true])) = [1] /\
  inits (log (run (step (run initial [OpenRepository false]) Activate)
                  [OpenRepository false; OpenRepository true;
                   LoadConfigurationSettled Returns; OpenRepository true])) = [2].
Proof.
  split.
  - pose proof (activate_initializes_once
                  (run initial [OpenRepository false; OpenRepository true;
                                OpenRepository true])
                  [OpenRepository true; LoadConfigurationSettled Returns;
                   OpenRepository true]) as H.
    assert (E : firstSelectedRepository
                  (git_repositories
                     (run initial [OpenRepository false; OpenRepository true;
                                   OpenRepository true]))
                = Some {| rid := 1; ui_selected := true |})
      by (vm_compute; reflexivity).
    cbv zeta in H. rewrite E in H. apply H.
    + exists [OpenRepository false; OpenRepository true; OpenRepository true].
      reflexivity.
    + vm_compute. reflexivity.
  - pose proof (activate_initializes_once
                  (run initial [OpenRepository false])
                  [OpenRepository false; OpenRepository true;
                   LoadConfigurationSettled Returns; OpenRepository true]) as H.
    assert (E : firstSelectedRepository
                  (git_repositories (run initial [OpenRepository false])) = None)
      by (vm_compute; reflexivity).
    cbv zeta in H. rewrite E in H. apply H.
    + exists [OpenRepository false]. reflexivity.
    + vm_compute. reflexivity.
Defined.


(** Claim C5 on the firing that follows the move of the selection. *)
Lemma managers_assigned_together_witness :
  exists s',
    stage (step (run two_repositories selection_moves) (TimerFired 2)) = Initialized s' /\
    pr_repository (prManager s') = 1 /\ rm_repository (reviewManager s') = 1.
Proof.
  destruct (managers_assigned_together
              (run two_repositories selection_moves)
              {| repository := 0;
                 prManager := {| pr_repository := 0 |};
                 reviewManager := {| rm_repository := 0 |};
                 updateRepositoryTimer := Some 2;
                 listening := [0; 1];
                 clearing := 0 |}) as (_ & H).
  - exists ([OpenRepository true; OpenRepository false; Activate;
             LoadConfigurationSettled Returns] ++ selection_moves).
    vm_compute. reflexivity.
  - vm_compute. reflexivity.
  - destruct (H 2 {| rid := 1; ui_selected := true |}) as (s' & A & B & C & _).
    + vm_compute. auto.
    + vm_compute. reflexivity.
    + exists s'. auto.
Defined.

(** Claim C6 on a firing that finds repository 0 deselected and repository 1 not yet selected. *)
Lemma timer_finds_nothing_selected_witness :
  log (step (run two_repositories [SetSelected 0 false; SelectionChanged 0])
            (TimerFired 1))
  = log (run two_repositories [SetSelected 0 false; SelectionChanged 0]) /\
  stage (step (run two_repositories [SetSelected 0 false; SelectionChanged 0])
              (TimerFired 1))
  = Initialized {| repository := 0;
                   prManager := {| pr_repository := 0 |};
                   reviewManager := {| rm_repository := 0 |};
                   updateRepositoryTimer := Some 1;
                   listening := [0; 1];
                   clearing := 0 |}.
Proof.
  destruct (timer_finds_nothing_selected
              (run two_repositories [SetSelected 0 false; SelectionChanged 0])
              {| repository := 0;
                 prManager := {| pr_repository := 0 |};
                 reviewManager := {| rm_repository := 0 |};
                 updateRepositoryTimer := Some 1;
                 listening := [0; 1];
                 clearing := 0 |}
              1) as (_ & Hs & Hl & _).
  - vm_compute. reflexivity.
  - vm_compute. auto.
  - vm_compute. intros r [<- | [<- | []]]; reflexivity.
  - split; [exact Hl | exact Hs].
Defined.

(** Claim C7, as amended, on an initialized run. *)
Lemma startup_once_after_initialization_witness :
  startups (log two_repositories) = 1.
Proof.
  apply (startup_once_after_initialization two_repositories).
  exists [OpenRepository true; OpenRepository false; Activate;
          LoadConfigurationSettled Returns]. reflexivity.
Defined.

(** Claim C7 as stated fails: an activation that finds no selected
    repository fulfils, and one whose configuration fails to load rejects,
    both without a startup event. *)
Lemma activation_without_startup :
  (activation (run initial [Activate]) = Fulfilled /\
   startups (log (run initial [Activate])) <> 1) /\
  (activation (step loading (LoadConfigurationSettled (Rejects "settings unreadable")))
     = Rejected "settings unreadable" /\
   startups (log (step loading (LoadConfigurationSettled (Rejects "settings unreadable"))))
     <> 1).
Proof. repeat split; vm_compute; (reflexivity || discriminate). Qed.

(** Claim C8 on an activation whose configuration fails to load. *)
Lemma configuration_failure_aborts_witness :
  stage (step loading (LoadConfigurationSettled (Rejects "settings unreadable")))
    = Aborted "settings unreadable" /\
  existsb wires
    (log (run (step loading (LoadConfigurationSettled (Rejects "settings unreadable")))
              [ConfigurationChanged; SelectionChanged 0; OpenRepository true]))
    = false.
Proof.
  destruct (configuration_failure_aborts loading 0 true
              (Rejects "settings unreadable") "settings unreadable"
              [ConfigurationChanged; SelectionChanged 0; OpenRepository true])
    as (_ & Hs & _ & _ & _ & Hw & _).
  - exists [OpenRepository true; Activate]. reflexivity.
  - vm_compute. reflexivity.
  - reflexivity.
  - split; [exact Hs | exact Hw].
Defined.

(** Claim C9 on an initialized run. *)
Lemma deactivate_awaits_shutdown_witness :
  deactivation (step two_repositories Deactivate) = Pending /\
  deactivation (step (step two_repositories Deactivate) (ShutdownSettled Returns))
    = Fulfilled.
Proof.
  destruct (deactivate_awaits_shutdown two_repositories Returns) as (_ & H).
  - exists [OpenRepository true; OpenRepository false; Activate;
            LoadConfigurationSettled Returns]. reflexivity.
  - vm_compute. reflexivity.
  - assert (E : telemetry two_repositories = Some Telemetry) by (vm_compute; reflexivity).
    rewrite E in H. destruct H as (_ & Hp & _ & Hf). split; [exact Hp | exact Hf].
Defined.

(** Claim C10 on a third repository opened after initialization. *)
Lemma late_repository_not_watched_witness :
  step (run (step two_repositories (OpenRepository true)) [SetSelected 0 false])
       (SelectionChanged 2)
  = run (step two_repositories (OpenRepository true)) [SetSelected 0 false].
Proof.
  destruct (late_repository_not_watched
              (run initial [OpenRepository true; OpenRepository false; Activate])
              0 true [] true [SetSelected 0 false]) as (_ & _ & _ & H & _).
  - exists [OpenRepository true; OpenRepository false; Activate]. reflexivity.
  - vm_compute. reflexivity.
  - exact H.
Defined.

(** * Further properties *)

(** ** Summary of the transitions *)

Lemma reachable_invariant (P : World -> Prop) :
  P initial ->
  (forall w ev, Inv w -> P w -> P (step w ev)) ->
  forall w, reachable w -> P w.
Proof.
  intros H0 Hstep w [evs ->].
  assert (G : forall evs w, Inv w -> P w -> P (run w evs)).
  { clear evs. induction evs as [|ev evs IH]; intros w HI HP; simpl; [exact HP|].
    apply IH; [apply step_Inv, HI | apply Hstep; assumption]. }
  apply G; [apply Inv_initial | exact H0].
Qed.

Lemma step_handling (w : World) (s : Scope) (ev : Event) :
  stage w = Initialized s ->
  exists es s',
    stage (step w ev) = Initialized s' /\
    log (step w ev) = log w ++ es /\
    activation (step w ev) = activation w /\
    handling w s ev es s'.
Proof.
  intros Est. destruct ev; simpl.
  - unfold onDidOpenRelevantRepository; simpl. rewrite Est.
    exists [], s. rewrite app_nil_r. repeat split; auto. constructor.
  - exists [], s. rewrite app_nil_r. repeat split; auto. constructor.
  - exists [], s. rewrite app_nil_r. repeat split; auto. constructor.
  - rewrite Est.
    pose proof (fire_selection_frame r w s) as F.
    destruct (fire_selection r w s) as [w1 s1] eqn:E. cbn [fst snd] in F.
    destruct F as [_ _ _ _ Fact _ (es & El & _) _ _ _ _ _ _].
    exists es, s1. simpl. repeat split; auto.
    apply (handling_selection w s r w1 s1 es E El).
  - rewrite Est. exists [], s. rewrite app_nil_r. repeat split; auto. constructor.
  - unfold loadConfigurationSettled. rewrite Est.
    exists [], s. rewrite app_nil_r. repeat split; auto. constructor.
  - rewrite Est. simpl. eexists _, _. repeat split; constructor.
  - rewrite Est. destruct (clearing s) as [|n] eqn:Ec.
    + exists [], s. rewrite app_nil_r. repeat split; auto. constructor.
    + simpl. eexists _, _. repeat split. constructor. exact Ec.
  - destruct (existsb (Nat.eqb t) (timers w)) eqn:Ex.
    + simpl. rewrite Est.
      destruct (updateRepository (git_repositories w) s) as [s1 es] eqn:Eu.
      simpl. exists es, s1. repeat split; auto.
      replace es with (snd (updateRepository (git_repositories w) s)) by (rewrite Eu; auto).
      replace s1 with (fst (updateRepository (git_repositories w) s)) by (rewrite Eu; auto).
      constructor. apply existsb_exists in Ex as (x & Hx & Exx).
      apply Nat.eqb_eq in Exx. subst x. exact Hx.
    + exists [], s. rewrite app_nil_r. repeat split; auto. constructor.
  - destruct (deactivation w) eqn:Ed;
      try (exists [], s; rewrite app_nil_r; repeat split; auto; constructor; fail).
    unfold deactivate. destruct (telemetry w); simpl.
    + exists [TelemetryShutdown], s. repeat split; auto. constructor. exact Ed.
    + exists [], s. rewrite app_nil_r. repeat split; auto. constructor.
  - unfold shutdownSettled.
    destruct (deactivation w);
      try (exists [], s; rewrite app_nil_r; repeat split; auto; constructor; fail).
    destruct (awaited o); simpl; exists [], s; rewrite app_nil_r;
      repeat split; auto; constructor.
Qed.

(** Before [init] has run to its end a dispatch makes early calls only and
    leaves the extension short of initialized, unless it is the loading of
    the configuration: then the log grows by lines 27-71 and the scope is
    the fresh one. *)
Lemma step_early (w : World) (ev : Event) :
  (forall s, stage w <> Initialized s) ->
  (exists es, log (step w ev) = log w ++ es /\ forallb early es = true /\
              forall s, stage (step w ev) <> Initialized s) \/
  (exists repo b,
      stage w = Loading repo b /\
      stage (step w ev) =
        Initialized (fresh_scope repo (map rid (git_repositories w))) /\
      log (step w ev) =
        log w ++ wiring repo (map rid (git_repositories w))
              ++ [TelemetryOn "startup"]).
Proof.
  intros Hno.
  destruct (stage w) as [| | repo b | s | e] eqn:Est; [| | | exfalso; eapply Hno; eauto |].
  all: destruct ev; simpl;
    unfold onDidOpenRelevantRepository, loadConfigurationSettled, shutdownSettled,
      deactivate, activate;
    simpl; rewrite ?Est.
  all: repeat match goal with
       | |- context [existsb (Nat.eqb ?t) (timers ?x)] =>
           destruct (existsb (Nat.eqb t) (timers x)); simpl; rewrite ?Est
       | |- context [match deactivation ?x with _ => _ end] =>
           destruct (deactivation x); simpl; rewrite ?Est
       | |- context [match telemetry ?x with _ => _ end] =>
           destruct (telemetry x); simpl; rewrite ?Est
       | |- context [firstSelectedRepository ?l] =>
           destruct (firstSelectedRepository l); simpl; rewrite ?Est
       | |- context [awaited ?o] =>
           let E := fresh "Eo" in destruct (awaited o) eqn:E; simpl; rewrite ?Est
       | |- context [if ?b then _ else _] => is_var b; destruct b; simpl; rewrite ?Est
       end.
  all: try (left; exists []; rewrite app_nil_r; simpl;
            repeat split; auto; discriminate).
  all: try (left; eexists; (split; [repeat rewrite <- app_assoc; simpl; reflexivity|]);
            split; [reflexivity | discriminate]).
  all: right; exists repo; eexists; (split; [reflexivity|]);
    unfold init_loaded, fresh_scope, wiring; simpl;
    (split; [reflexivity | repeat rewrite <- app_assoc; reflexivity]).
Qed.

(** ** The first selected repository *)

(** Property X1. [git.repositories.filter(r => r.ui.selected)[0]] is the
    earliest selected repository of the enumeration, and is undefined
    exactly when no repository is selected. *)
Theorem firstSelectedRepository_earliest (repos : list Repository) :
  (forall r,
      firstSelectedRepository repos = Some r <->
      exists before after,
        repos = before ++ r :: after /\ ui_selected r = true /\
        forall x, In x before -> ui_selected x = false) /\
  (firstSelectedRepository repos = None <->
   forall x, In x repos -> ui_selected x = false).
Proof.
  split.
  - intros r. split; [apply firstSelectedRepository_some|].
    intros (before & after & -> & Hr & Hb).
    unfold firstSelectedRepository. rewrite filter_app. simpl. rewrite Hr.
    assert (E : filter ui_selected before = []).
    { clear -Hb. induction before as [|x l IH]; [reflexivity|].
      simpl. rewrite (Hb x (or_introl eq_refl)). apply IH.
      intros y Hy. apply Hb. right. exact Hy. }
    rewrite E. reflexivity.
  - split; [|apply firstSelectedRepository_none].
    unfold firstSelectedRepository. intros H x Hx.
    destruct (ui_selected x) eqn:Ex; [|reflexivity].
    assert (K : In x (filter ui_selected repos)) by (apply filter_In; auto).
    destruct (filter ui_selected repos); [destruct K | discriminate H].
Qed.

(** ** Handlers run after initialization only *)

Lemma early_unhandled (es : list Effect) :
  forallb early es = true -> existsb handled es = false.
Proof.
  induction es as [|e es IH]; simpl; [reflexivity|].
  intros H. apply andb_true_iff in H as [He Hes].
  rewrite (IH Hes). destruct e; simpl in *; try discriminate; reflexivity.
Qed.

Lemma unhandled_subscriptions (repos : list RepoId) :
  existsb handled (map UiOnDidChange repos) = false.
Proof. induction repos as [|r repos IH]; [reflexivity | exact IH]. Qed.

Lemma unhandled_wiring (repo : RepoId) (repos : list RepoId) :
  existsb handled (wiring repo repos) = false.
Proof. unfold wiring. rewrite existsb_app, unhandled_subscriptions. reflexivity. Qed.

Lemma step_quiet (w : World) (ev : Event) : quiet w -> quiet (step w ev).
Proof.
  unfold quiet. intros H.
  destruct (stage w) as [| | repo b | s | e] eqn:Est.
  4: { destruct (step_handling w s ev Est) as (es & s' & -> & -> & _).
       destruct H as (pre & post & -> & Hpre).
       exists pre, (post ++ es). rewrite <- app_assoc. auto. }
  all: destruct (step_early w ev) as [(es & El & Hes & Hno) | (repo' & b' & _ & Es & El)];
    try (rewrite Est; discriminate).
  all: try (rewrite Es, El; exists (log w ++ wiring repo' (map rid (git_repositories w))), [];
            split; [rewrite <- app_assoc; reflexivity|];
            rewrite existsb_app, H, unhandled_wiring; reflexivity).
  all: rewrite El; destruct (stage (step w ev)); try (exfalso; eapply Hno; eauto; fail);
    rewrite existsb_app, H, (early_unhandled _ Hes); reflexivity.
Qed.

Lemma reachable_quiet (w : World) : reachable w -> quiet w.
Proof.
  apply reachable_invariant; [reflexivity|]. intros w0 ev _. apply step_quiet.
Qed.

(** Where an entry outside [pre ++ [x]] sits in [pre ++ x :: post]. *)
Lemma after_cut (pre post pre' post' : list Effect) (x e : Effect) :
  pre ++ x :: post = pre' ++ e :: post' ->
  ~ In e (pre ++ [x]) ->
  exists mid, pre' = pre ++ x :: mid.
Proof.
  revert pre'. induction pre as [|y pre IH]; intros [|y' pre'] E Hn; simpl in *.
  - injection E as -> _. exfalso. apply Hn. auto.
  - injection E as -> _. eauto.
  - injection E as -> _. exfalso. apply Hn. auto.
  - injection E as -> E. destruct (IH pre' E) as (mid & ->); [tauto|]. eauto.
Qed.

(** Property X2. No call of the configuration handler, of the selection
    listener or of the timer callback is made before the startup event. *)
Theorem handlers_after_startup
    (w : World) (pre post : list Effect) (e : Effect) :
  reachable w ->
  log w = pre ++ e :: post -> handled e = true ->
  In (TelemetryOn "startup") pre.
Proof.
  intros Hre E He. pose proof (reachable_quiet w Hre) as H. unfold quiet in H.
  assert (Hin : existsb handled (log w) = true).
  { rewrite E, existsb_app. simpl. rewrite He. apply orb_true_r. }
  destruct (stage w); try congruence.
  destruct H as (pre0 & post0 & E0 & Hpre0).
  destruct (after_cut pre0 post0 pre post (TelemetryOn "startup") e) as (mid & ->).
  - congruence.
  - intros K. apply in_app_or in K as [K | [<- | []]]; [|discriminate He].
    assert (existsb handled pre0 = true) by (apply existsb_exists; eauto).
    congruence.
  - apply in_or_app. right. left. reflexivity.
Qed.

(** ** The calls of the configuration handler *)

Lemma count_app (p : Effect -> bool) (l1 l2 : list Effect) :
  count p (l1 ++ l2) = count p l1 + count p l2.
Proof. unfold count. rewrite filter_app, length_app. reflexivity. Qed.

Lemma count_none (p q : Effect -> bool) (es : list Effect) :
  (forall e, q e = true -> p e = false) ->
  forallb q es = true -> count p es = 0.
Proof.
  intros Hpq. induction es as [|e es IH]; simpl; [reflexivity|].
  intros H. apply andb_true_iff in H as [He Hes].
  unfold count in *. simpl. rewrite (Hpq e He). apply IH, Hes.
Qed.

Lemma count_subscriptions (p : Effect -> bool) (repos : list RepoId) :
  (forall r, p (UiOnDidChange r) = false) ->
  count p (map UiOnDidChange repos) = 0.
Proof.
  intros Hp. induction repos as [|r repos IH]; [reflexivity|].
  unfold count in *. simpl. rewrite Hp. exact IH.
Qed.

(** The listener makes timer calls only. *)
Lemma onDidChangeSelection_log (w : World) (s : Scope) :
  exists es,
    log (fst (onDidChangeSelection (w, s))) = log w ++ es /\
    forallb timer_effect es = true /\
    (ledger (log w) s ->
     ledger (log (fst (onDidChangeSelection (w, s)))) (snd (onDidChangeSelection (w, s)))).
Proof.
  unfold onDidChangeSelection, setTimeout, clearTimeout, ledger.
  destruct (updateRepositoryTimer s) as [t|]; simpl.
  - exists [ClearTimeout t; SetTimeout (next_timer w) 50].
    rewrite <- app_assoc. repeat split; auto.
    intros H. unfold scheduled, cleared in *.
    rewrite !flat_map_app. simpl. rewrite ?app_nil_r, H. reflexivity.
  - exists [SetTimeout (next_timer w) 50]. repeat split; auto.
    intros [H1 H2]. unfold scheduled, cleared in *.
    rewrite !flat_map_app. simpl. rewrite ?app_nil_r, H1, H2. reflexivity.
Qed.

Lemma fire_selection_log (r : RepoId) (w w' : World) (s s' : Scope) (es : list Effect) :
  fire_selection r w s = (w', s') -> log w' = log w ++ es ->
  forallb timer_effect es = true /\ (ledger (log w) s -> ledger (log w') s').
Proof.
  unfold fire_selection.
  generalize (filter (Nat.eqb r) (listening s)) as subs.
  intros subs. revert w s es.
  induction subs as [|x subs IH]; intros w s es E El; cbn [fold_left] in E.
  - injection E as <- <-.
    assert (es = []) as ->.
    { apply (app_inv_head (log w)). rewrite app_nil_r. symmetry. exact El. }
    auto.
  - destruct (onDidChangeSelection_log w s) as (es1 & E1 & T1 & L1).
    destruct (onDidChangeSelection (w, s)) as [w1 s1]. cbn [fst snd] in *.
    assert (Hpre : exists es2, log w' = log w1 ++ es2).
    { clear -E. revert w1 s1 E. induction subs as [|y subs IH]; intros w1 s1 E;
        cbn [fold_left] in E.
      - injection E as <- _. exists []. rewrite app_nil_r. reflexivity.
      - destruct (onDidChangeSelection_log w1 s1) as (ea & Ea & _).
        destruct (onDidChangeSelection (w1, s1)) as [w2 s2]. cbn [fst snd] in *.
        destruct (IH _ _ E) as (eb & Eb). exists (ea ++ eb).
        rewrite Eb, Ea, app_assoc. reflexivity. }
    destruct Hpre as (es2 & E2).
    destruct (IH w1 s1 es2 E E2) as (T2 & L2).
    assert (es = es1 ++ es2) as ->.
    { apply (app_inv_head (log w)). rewrite <- El, E2, E1, app_assoc. reflexivity. }
    rewrite forallb_app, T1, T2. auto.
Qed.


Ltac tally :=
  repeat match goal with
         | |- context [count ?p (log ?w)] =>
             let n := fresh "n" in set (n := count p (log w)) in *
         end;
  unfold count; simpl; lia.

Lemma step_accounted (w : World) (ev : Event) : accounted w -> accounted (step w ev).
Proof.
  unfold accounted. intros H.
  destruct (stage w) as [| | repo b | s | e] eqn:Est.
  4: { destruct (step_handling w s ev Est) as (es & s' & -> & -> & _ & Hh).
       rewrite !count_app. destruct H as (H1 & H2 & H3).
       destruct Hh as [ | clear status n Hc | t Ht | r w' s' es Hf Hl | Hd | ev ]; simpl.
       - tally.
       - rewrite Hc in *. destruct clear, status; tally.
       - unfold updateRepository.
         destruct (firstSelectedRepository (git_repositories w)); tally.
       - destruct (fire_selection_log r w w' s s' es Hf Hl) as [Ht _].
         pose proof (fire_selection_frame r w s) as F. rewrite Hf in F.
         cbn [fst snd] in F. rewrite (lf_clearing _ _ _ _ F).
         rewrite (count_none is_clear timer_effect es),
                 (count_none is_status timer_effect es),
                 (count_none is_show timer_effect es); auto;
           try (intros [] ?; simpl in *; congruence). lia.
       - tally.
       - tally. }
  all: destruct (step_early w ev)
         as [(es & El & Hes & Hno) | (repo' & b' & Eload & Es & El)];
    try (rewrite Est; discriminate); try (rewrite Est in Eload; discriminate).
  all: try (rewrite Es, El; unfold wiring;
            rewrite !count_app, !count_subscriptions by reflexivity;
            unfold fresh_scope; destruct H as (-> & -> & ->);
            unfold count; simpl; lia).
  all: rewrite El; destruct (stage (step w ev)); try (exfalso; eapply Hno; eauto; fail);
    rewrite !count_app;
    rewrite (count_none is_clear early es), (count_none is_status early es),
            (count_none is_show early es); auto;
    try (intros [] ?; simpl in *; congruence); lia.
Qed.

Lemma reachable_accounted (w : World) : reachable w -> accounted w.
Proof.
  apply reachable_invariant; [repeat split|]. intros w0 ev _. apply step_accounted.
Qed.

(** Property X3. Each configuration change asks once for the credential
    cache to be cleared. Of the runs of the handler that have resumed, each
    asked for the status or showed an error message, and did either at most
    once. *)
Theorem handler_calls_accounted (w : World) (s : Scope) :
  reachable w -> stage w = Initialized s ->
  count is_status (log w) + clearing s <= count is_clear (log w) /\
  count is_show (log w) + clearing s <= count is_clear (log w) /\
  count is_clear (log w) <= clearing s + count is_status (log w) + count is_show (log w).
Proof.
  intros Hre Est. pose proof (reachable_accounted w Hre) as H.
  unfold accounted in H. rewrite Est in H. exact H.
Qed.

(** ** The handles of the debounce timer *)

Lemma flat_map_none {A B} (f : A -> list B) (q : A -> bool) (es : list A) :
  (forall e, q e = true -> f e = []) ->
  forallb q es = true -> flat_map f es = [].
Proof.
  intros Hf. induction es as [|e es IH]; simpl; [reflexivity|].
  intros H. apply andb_true_iff in H as [He Hes].
  rewrite (Hf e He), (IH Hes). reflexivity.
Qed.

Lemma flat_map_subscriptions {B} (f : Effect -> list B) (repos : list RepoId) :
  (forall r, f (UiOnDidChange r) = []) ->
  flat_map f (map UiOnDidChange repos) = [].
Proof.
  intros Hf. induction repos as [|r repos IH]; [reflexivity|].
  simpl. rewrite Hf. exact IH.
Qed.

Lemma ledger_untouched (l es : list Effect) (s s' : Scope) :
  updateRepositoryTimer s' = updateRepositoryTimer s ->
  scheduled es = [] -> cleared es = [] ->
  ledger l s -> ledger (l ++ es) s'.
Proof.
  unfold ledger, scheduled, cleared. intros -> Hs Hc.
  rewrite !flat_map_app, Hs, Hc, !app_nil_r. auto.
Qed.

Lemma step_timers_logged (w : World) (ev : Event) :
  timers_logged w -> timers_logged (step w ev).
Proof.
  unfold timers_logged. intros H.
  destruct (stage w) as [| | repo b | s | e] eqn:Est.
  4: { destruct (step_handling w s ev Est) as (es & s' & -> & El & _ & Hh).
       destruct Hh as [ | clear status n Hc | t Ht | r w' s' es Hf Hl | Hd | ev ];
         try (rewrite El; apply (ledger_untouched _ _ s); auto; fail).
       - rewrite El. apply (ledger_untouched _ _ s); auto; destruct clear, status; reflexivity.
       - rewrite El. unfold updateRepository.
         destruct (firstSelectedRepository (git_repositories w));
           apply (ledger_untouched _ _ s); auto.
       - rewrite El, <- Hl. apply (fire_selection_log r w w' s s' es Hf Hl), H. }
  all: destruct (step_early w ev)
         as [(es & El & Hes & Hno) | (repo' & b' & Eload & Es & El)];
    try (rewrite Est; discriminate); try (rewrite Est in Eload; discriminate).
  all: try (rewrite Es, El; unfold ledger, scheduled, cleared, wiring in *;
            rewrite !flat_map_app, !flat_map_subscriptions by reflexivity;
            destruct H as [-> ->]; unfold fresh_scope; simpl; split; reflexivity).
  all: rewrite El; destruct (stage (step w ev)); try (exfalso; eapply Hno; eauto; fail);
    unfold scheduled, cleared in *; rewrite !flat_map_app;
    rewrite (flat_map_none scheduled_handle early es),
            (flat_map_none cleared_handle early es); auto;
    try (intros [] ?; simpl in *; congruence);
    destruct H as [-> ->]; split; reflexivity.
Qed.

Lemma reachable_timers_logged (w : World) : reachable w -> timers_logged w.
Proof.
  apply reachable_invariant; [split; reflexivity|]. intros w0 ev _.
  apply step_timers_logged.
Qed.

(** Property X4. Cancel and replace: the handles passed to [clearTimeout]
    are, in order, all the handles [setTimeout] ever gave the listener but
    the last, fired or not; the last is the one [updateRepositoryTimer]
    holds, and no timer other than that one is pending. *)
Theorem timers_cancelled_and_replaced (w : World) (s : Scope) :
  reachable w -> stage w = Initialized s ->
  match updateRepositoryTimer s with
  | Some t => scheduled (log w) = cleared (log w) ++ [t] /\
              (timers w = [] \/ timers w = [t])
  | None => scheduled (log w) = [] /\ cleared (log w) = [] /\ timers w = []
  end.
Proof.
  intros Hre Est. pose proof (reachable_timers_logged w Hre) as H.
  pose proof (inv_timers w (reachable_Inv w Hre)) as Ht.
  unfold timers_logged, ledger in H. rewrite Est in H, Ht.
  destruct Ht as [[E | (t & Eu & E)] _];
    destruct (updateRepositoryTimer s) as [t'|]; try discriminate; intuition.
  injection Eu as ->. auto.
Qed.

(** ** The repository the managers hold *)

Lemma assigned_untouched (w w' : World) (s s' : Scope) (es : list Effect) :
  stage w = Initialized s -> stage w' = Initialized s' ->
  log w' = log w ++ es ->
  pr_assignments es = [] -> rm_assignments es = [] ->
  repository s' = repository s -> prManager s' = prManager s ->
  reviewManager s' = reviewManager s ->
  assigned w -> assigned w'.
Proof.
  unfold assigned, pr_assignments, rm_assignments.
  intros -> -> -> Hp Hr -> -> ->.
  rewrite !flat_map_app, Hp, Hr, !app_nil_r. auto.
Qed.

Lemma step_assigned (w : World) (ev : Event) : assigned w -> assigned (step w ev).
Proof.
  intros H.
  destruct (stage w) as [| | repo b | s | e] eqn:Est.
  4: { destruct (step_handling w s ev Est) as (es & s' & Es & El & _ & Hh).
       destruct Hh as [ | clear status n Hc | t Ht | r w' s' es Hf Hl | Hd | ev ];
         try (apply (assigned_untouched w _ s _ _ Est Es El); auto; fail).
       - apply (assigned_untouched w _ s _ _ Est Es El); auto;
           destruct clear, status; reflexivity.
       - unfold assigned in *. rewrite Es, El. rewrite Est in H.
         unfold updateRepository.
         destruct (firstSelectedRepository (git_repositories w)) as [x|]; simpl.
         + unfold pr_assignments, rm_assignments in *.
           rewrite !flat_map_app. simpl. destruct H as (-> & _ & _).
           rewrite !last_last. auto.
         + rewrite app_nil_r. exact H.
       - destruct (fire_selection_log r w w' s s' es Hf Hl) as [Ht _].
         pose proof (fire_selection_frame r w s) as F. rewrite Hf in F.
         cbn [fst snd] in F.
         apply (assigned_untouched w _ s s' es Est Es El); auto; try apply F.
         + apply (flat_map_none pr_assignment timer_effect); auto.
           intros [] ?; simpl in *; congruence.
         + apply (flat_map_none rm_assignment timer_effect); auto.
           intros [] ?; simpl in *; congruence. }
  all: unfold assigned in *; rewrite Est in H.
  all: destruct (step_early w ev)
         as [(es & El & Hes & Hno) | (repo' & b' & Eload & Es & El)];
    try (rewrite Est; discriminate); try (rewrite Est in Eload; discriminate).
  all: try (rewrite Es, El; unfold pr_assignments, rm_assignments, wiring in *;
            rewrite !flat_map_app, !flat_map_subscriptions by reflexivity;
            destruct H as [-> ->]; unfold fresh_scope; simpl; auto).
  all: rewrite El; destruct (stage (step w ev)); try (exfalso; eapply Hno; eauto; fail);
    unfold pr_assignments, rm_assignments in *; rewrite !flat_map_app;
    rewrite (flat_map_none pr_assignment early es),
            (flat_map_none rm_assignment early es); auto;
    try (intros [] ?; simpl in *; congruence);
    destruct H as [-> ->]; split; reflexivity.
Qed.

Lemma reachable_assigned (w : World) : reachable w -> assigned w.
Proof.
  apply reachable_invariant; [split; reflexivity|]. intros w0 ev _. apply step_assigned.
Qed.

(** Property X5. The two managers have been assigned the same repositories
    in the same order, and each holds the repository assigned last, or the
    repository [init] was called with when none has been assigned. *)
Theorem managers_hold_last_assignment (w : World) (s : Scope) :
  reachable w -> stage w = Initialized s ->
  pr_assignments (log w) = rm_assignments (log w) /\
  pr_repository (prManager s) = last (pr_assignments (log w)) (repository s) /\
  rm_repository (reviewManager s) = last (rm_assignments (log w)) (repository s).
Proof.
  intros Hre Est. pose proof (reachable_assigned w Hre) as H.
  unfold assigned in H. rewrite Est in H. exact H.
Qed.

(** Property X6. Only the firing of a timer changes the repository of a
    manager: through any run without one, both managers are left as they
    are. *)
Theorem managers_change_only_on_firing (w : World) (s : Scope) (evs : list Event) :
  stage w = Initialized s -> forallb churn evs = true ->
  exists s',
    stage (run w evs) = Initialized s' /\
    prManager s' = prManager s /\ reviewManager s' = reviewManager s.
Proof.
  revert w s. induction evs as [|ev evs IH]; intros w s Est Hch; simpl; [eauto|].
  simpl in Hch. apply andb_true_iff in Hch as [Hev Hevs].
  destruct (step_handling w s ev Est) as (es & s1 & Es & El & _ & Hh).
  assert (K : prManager s1 = prManager s /\ reviewManager s1 = reviewManager s).
  { destruct Hh as [ | clear status n Hc | t Ht | r w' s' es Hf Hl | Hd | ev ];
      try discriminate; auto.
    pose proof (fire_selection_frame r w s) as F. rewrite Hf in F.
    cbn [fst snd] in F. split; apply F. }
  destruct (IH _ s1 Es Hevs) as (s' & E' & P' & R').
  exists s'. destruct K as [-> ->] in P', R'. auto.
Qed.

(** ** Waiting for a repository *)

Lemma step_discovering (w : World) (ev : Event) :
  stage w = Discovering -> opens_selected ev = false ->
  stage (step w ev) = Discovering /\ activation (step w ev) = activation w.
Proof.
  intros Est Hev.
  destruct ev; simpl;
    unfold onDidOpenRelevantRepository, loadConfigurationSettled, shutdownSettled,
      deactivate;
    simpl; rewrite ?Est.
  all: repeat match goal with
       | |- context [existsb (Nat.eqb ?t) (timers ?x)] =>
           destruct (existsb (Nat.eqb t) (timers x)); simpl; rewrite ?Est
       | |- context [match deactivation ?x with _ => _ end] =>
           destruct (deactivation x); simpl; rewrite ?Est
       | |- context [match telemetry ?x with _ => _ end] =>
           destruct (telemetry x); simpl; rewrite ?Est
       | |- context [awaited ?o] =>
           let E := fresh "Eo" in destruct (awaited o) eqn:E; simpl; rewrite ?Est
       | |- context [if ?b then _ else _] => is_var b; destruct b; simpl; rewrite ?Est
       end.
  all: auto; discriminate.
Qed.

Lemma run_discovering_waits (evs : list Event) (w : World) :
  stage w = Discovering -> existsb opens_selected evs = false ->
  stage (run w evs) = Discovering /\ activation (run w evs) = activation w.
Proof.
  revert w. induction evs as [|ev evs IH]; intros w Est H; simpl; [auto|].
  simpl in H. apply orb_false_iff in H as [Hev Hevs].
  destruct (step_discovering w ev Est Hev) as [E1 A1].
  destruct (IH _ E1 Hevs) as [E2 A2]. split; congruence.
Qed.

(** Property X8. When no repository is selected as [activate] runs, only the
    opening of a selected repository starts [init]. Through any run without
    one the extension keeps waiting, the promise of [activate] fulfilled and
    nothing wired, even when a repository that is already open gets selected
    and reports the change. *)
Theorem waits_for_an_opened_repository (w0 : World) (evs : list Event) :
  reachable w0 -> stage w0 = Inactive ->
  firstSelectedRepository (git_repositories w0) = None ->
  existsb opens_selected evs = false ->
  let w := run (step w0 Activate) evs in
  stage w = Discovering /\ activation w = Fulfilled /\
  inits (log w) = [] /\ existsb wires (log w) = false /\
  forall r, step w (SelectionChanged r) = w.
Proof.
  intros Hre Est Hsel Hevs. cbv zeta.
  assert (E1 : stage (step w0 Activate) = Discovering /\
               activation (step w0 Activate) = Fulfilled).
  { simpl. rewrite Est. unfold activate. simpl. rewrite Hsel. auto. }
  destruct E1 as [E1 A1].
  destruct (run_discovering_waits evs _ E1 Hevs) as [E2 A2].
  assert (HI : Inv (run (step w0 Activate) evs)).
  { apply run_Inv, step_Inv, reachable_Inv, Hre. }
  pose proof (inv_log _ HI) as Hlog. unfold log_ok in Hlog. rewrite E2 in Hlog.
  repeat split; try tauto; try congruence.
  intros r. remember (run (step w0 Activate) evs) as w eqn:Ew. clear Ew.
  simpl. rewrite E2. reflexivity.
Qed.

(** ** The teardown *)

Lemma filter_twice {A} (p : A -> bool) (l : list A) :
  filter p (filter p l) = filter p l.
Proof.
  induction l as [|x l IH]; simpl; [reflexivity|].
  destruct (p x) eqn:E; simpl; rewrite ?E, IH; reflexivity.
Qed.

Lemma without_teardown_twice (w : World) :
  without_teardown (without_teardown w) = without_teardown w.
Proof. unfold without_teardown. simpl. rewrite filter_twice. reflexivity. Qed.

Lemma step_teardown (w : World) (ev : Event) :
  tears_down ev = true -> without_teardown (step w ev) = without_teardown w.
Proof.
  destruct ev; try discriminate; intros _; simpl.
  - destruct (deactivation w); try reflexivity.
    unfold deactivate. destruct (telemetry w); unfold without_teardown; simpl;
      [rewrite filter_app, app_nil_r|]; reflexivity.
  - unfold shutdownSettled. destruct (deactivation w); try reflexivity.
    destruct (awaited o); reflexivity.
Qed.

Lemma onDidChangeSelection_teardown (w : World) (s : Scope) :
  without_teardown (fst (onDidChangeSelection (without_teardown w, s))) =
  without_teardown (fst (onDidChangeSelection (w, s))) /\
  snd (onDidChangeSelection (without_teardown w, s)) = snd (onDidChangeSelection (w, s)).
Proof.
  unfold onDidChangeSelection, setTimeout, clearTimeout, without_teardown.
  destruct (updateRepositoryTimer s); simpl; split; try reflexivity;
    rewrite !filter_app, filter_twice; reflexivity.
Qed.

Lemma fire_selection_teardown (r : RepoId) (w : World) (s : Scope) :
  without_teardown (fst (fire_selection r (without_teardown w) s)) =
  without_teardown (fst (fire_selection r w s)) /\
  snd (fire_selection r (without_teardown w) s) = snd (fire_selection r w s).
Proof.
  unfold fire_selection.
  generalize (filter (Nat.eqb r) (listening s)) as subs. intros subs.
  assert (G : forall subs w1 w2 s,
             without_teardown w1 = without_teardown w2 ->
             without_teardown
               (fst (fold_left (fun ws _ => onDidChangeSelection ws) subs (w1, s))) =
             without_teardown
               (fst (fold_left (fun ws (_ : RepoId) => onDidChangeSelection ws) subs (w2, s))) /\
             snd (fold_left (fun ws _ => onDidChangeSelection ws) subs (w1, s)) =
             snd (fold_left (fun ws (_ : RepoId) => onDidChangeSelection ws) subs (w2, s))).
  { clear. induction subs as [|x subs IH]; intros w1 w2 s E; cbn [fold_left]; [auto|].
    destruct (onDidChangeSelection_teardown w1 s) as [A1 B1].
    destruct (onDidChangeSelection_teardown w2 s) as [A2 B2].
    rewrite E in A1, B1.
    destruct (onDidChangeSelection (w1, s)) as [w1' s1'].
    destruct (onDidChangeSelection (w2, s)) as [w2' s2'].
    cbn [fst snd] in *.
    assert (s1' = s2') as -> by congruence.
    apply IH. congruence. }
  apply G. apply without_teardown_twice.
Qed.

(** A dispatch that is not of the teardown reads nothing the teardown
    wrote. *)
Lemma step_without_teardown (w : World) (ev : Event) :
  tears_down ev = false ->
  without_teardown (step (without_teardown w) ev) = without_teardown (step w ev).
Proof.
  intros Hev. destruct ev; try discriminate; simpl.
  - unfold onDidOpenRelevantRepository. simpl.
    destruct (stage w); try destruct selected; unfold without_teardown; simpl;
      rewrite ?filter_app, ?filter_twice; reflexivity.
  - unfold without_teardown. simpl. rewrite filter_twice. reflexivity.
  - unfold without_teardown. simpl. rewrite filter_twice. reflexivity.
  - destruct (stage w) eqn:Est; try apply without_teardown_twice.
    destruct (fire_selection_teardown r w s) as [A B].
    destruct (fire_selection r (without_teardown w) s) as [w1 s1].
    destruct (fire_selection r w s) as [w2 s2]. cbn [fst snd] in *. subst s2.
    unfold without_teardown in *. simpl. injection A as -> -> -> _ -> -> -> ->.
    reflexivity.
  - destruct (stage w); try apply without_teardown_twice.
    unfold activate. simpl.
    destruct (firstSelectedRepository (git_repositories w));
      unfold without_teardown; simpl; rewrite !filter_app, filter_twice; reflexivity.
  - unfold loadConfigurationSettled. simpl.
    destruct (stage w); try apply without_teardown_twice.
    destruct (awaited o), awaitedByActivate; unfold without_teardown; simpl;
      rewrite ?filter_app, ?filter_twice; reflexivity.
  - destruct (stage w); try apply without_teardown_twice.
    unfold without_teardown; simpl. rewrite !filter_app, filter_twice. reflexivity.
  - destruct (stage w); try apply without_teardown_twice.
    destruct (clearing s); try apply without_teardown_twice.
    unfold without_teardown; simpl. rewrite !filter_app, filter_twice. reflexivity.
  - destruct (existsb (Nat.eqb t) (timers w)); try apply without_teardown_twice.
    simpl. destruct (stage w).
    4: destruct (updateRepository (git_repositories w) s).
    all: unfold without_teardown; simpl; rewrite ?filter_app, ?filter_twice; reflexivity.
Qed.

(** Property X9. [deactivate] and the settling of the shutdown write the
    promise of [deactivate] and the shutdown call, and nothing reads them: a
    run and the same run without its teardown end in worlds that differ in
    those two only. The stage, the managers, the pending timer and the
    subscriptions are as if [deactivate] had never been called. *)
Theorem teardown_changes_nothing_else (w : World) (evs : list Event) :
  without_teardown (run w evs) =
  without_teardown (run w (filter (fun ev => negb (tears_down ev)) evs)).
Proof.
  assert (G : forall evs w1 w2,
             without_teardown w1 = without_teardown w2 ->
             without_teardown (run w1 evs) =
             without_teardown (run w2 (filter (fun ev => negb (tears_down ev)) evs))).
  { clear. induction evs as [|ev evs IH]; intros w1 w2 E; simpl; [exact E|].
    destruct (tears_down ev) eqn:Hev; simpl.
    - apply IH. rewrite step_teardown by exact Hev. exact E.
    - apply IH.
      rewrite <- (step_without_teardown w1), <- (step_without_teardown w2) by exact Hev.
      rewrite E. reflexivity. }
  apply G. reflexivity.
Qed.

(** ** Further properties on concrete runs *)

(** Property X2 on the run that ends with a configuration change. *)
Lemma handlers_after_startup_witness :
  In (TelemetryOn "startup") (firstn 13 (log configured)).
Proof.
  apply (handlers_after_startup configured (firstn 13 (log configured))
           [] ClearCredentialCache).
  - exists [OpenRepository true; Activate; LoadConfigurationSettled Returns;
            ConfigurationChanged]. reflexivity.
  - vm_compute. reflexivity.
  - reflexivity.
Defined.

(** Property X3 on the run in which the selection has moved and a handler
    is suspended. *)
Lemma handler_calls_accounted_witness :
  count is_status (log switched) + 1 <= count is_clear (log switched) /\
  count is_show (log switched) + 1 <= count is_clear (log switched) /\
  count is_clear (log switched)
    <= 1 + count is_status (log switched) + count is_show (log switched).
Proof.
  apply (handler_calls_accounted
           switched
           {| repository := 0;
              prManager := {| pr_repository := 1 |};
              reviewManager := {| rm_repository := 1 |};
              updateRepositoryTimer := Some 2;
              listening := [0; 1];
              clearing := 1 |}).
  - exists ([OpenRepository true; OpenRepository false; Activate;
             LoadConfigurationSettled Returns]
            ++ selection_moves ++ [TimerFired 2; ConfigurationChanged]).
    vm_compute. reflexivity.
  - vm_compute. reflexivity.
Defined.

(** Property X4 on the move of the selection. *)
Lemma timers_cancelled_and_replaced_witness :
  scheduled (log (run two_repositories selection_moves)) =
    cleared (log (run two_repositories selection_moves)) ++ [2] /\
  (timers (run two_repositories selection_moves) = [] \/
   timers (run two_repositories selection_moves) = [2]).
Proof.
  apply (timers_cancelled_and_replaced
           (run two_repositories selection_moves)
           {| repository := 0;
              prManager := {| pr_repository := 0 |};
              reviewManager := {| rm_repository := 0 |};
              updateRepositoryTimer := Some 2;
              listening := [0; 1];
              clearing := 0 |}).
  - exists ([OpenRepository true; OpenRepository false; Activate;
             LoadConfigurationSettled Returns] ++ selection_moves).
    vm_compute. reflexivity.
  - vm_compute. reflexivity.
Defined.

(** Property X6 on a run with selection changes, a configuration change and
    the closing of the active repository. *)
Lemma managers_change_only_on_firing_witness :
  exists s',
    stage (run two_repositories
               (selection_moves ++ [ConfigurationChanged; CloseRepository 0]))
      = Initialized s' /\
    prManager s' = {| pr_repository := 0 |} /\
    reviewManager s' = {| rm_repository := 0 |}.
Proof.
  apply (managers_change_only_on_firing two_repositories two_repositories_scope
           (selection_moves ++ [ConfigurationChanged; CloseRepository 0])).
  - vm_compute. reflexivity.
  - vm_compute. reflexivity.
Defined.

(** Property X5 on the run in which the selection has moved. *)
Lemma managers_hold_last_assignment_witness :
  pr_assignments (log switched) = rm_assignments (log switched) /\
  1 = last (pr_assignments (log switched)) 0 /\
  1 = last (rm_assignments (log switched)) 0.
Proof.
  apply (managers_hold_last_assignment
           switched
           {| repository := 0;
              prManager := {| pr_repository := 1 |};
              reviewManager := {| rm_repository := 1 |};
              updateRepositoryTimer := Some 2;
              listening := [0; 1];
              clearing := 1 |}).
  - exists ([OpenRepository true; OpenRepository false; Activate;
             LoadConfigurationSettled Returns]
            ++ selection_moves ++ [TimerFired 2; ConfigurationChanged]).
    vm_compute. reflexivity.
  - vm_compute. reflexivity.
Defined.

(** Property X8 on a run where the one open repository gets selected after
    [activate] and reports it. *)
Lemma waits_for_an_opened_repository_witness :
  stage (run (step (run initial [OpenRepository false]) Activate)
             [SetSelected 0 true; SelectionChanged 0; OpenRepository false;
              ConfigurationChanged])
    = Discovering.
Proof.
  apply (waits_for_an_opened_repository
           (run initial [OpenRepository false])
           [SetSelected 0 true; SelectionChanged 0; OpenRepository false;
            ConfigurationChanged]).
  - exists [OpenRepository false]. reflexivity.
  - vm_compute. reflexivity.
  - vm_compute. reflexivity.
  - vm_compute. reflexivity.
Defined.
